(** * address-validation-api: admission, sanitisation and geofencing

  A shallow embedding of the request-admission and geofencing pipeline of
  the address validator (packages [handlers], [services], [adapters]),
  together with the properties its specification states about it.

  The repository carries two revisions of these packages side by side:
  the current one (zap logger, [config.MapConfig], [config.RateLimitConfig])
  and the earlier one (slog logger, [*config.Config]).  Both are embedded;
  the earlier revision lives in modules whose name ends in [Legacy].

  Conventions.
  - A Go [string] is a sequence of bytes: Rocq's [string] (a list of 8-bit
    [ascii]) is used as is.
  - Go's [int] and [time.Duration] are 64-bit; they are integers of [Z]
    with the conversions and saturations written out.
  - [float64] is Rocq's primitive binary64 [float], evaluated operation by
    operation (no fused multiply-add); [math.Sin], [math.Cos], [math.Atan2]
    and the Unicode case tables are parameters.
  - [time.Now()] is an input of the call that reads the clock.
  - Logging has no influence on any result and is left out. *)

From Stdlib Require Import ZArith Bool Ascii String List Lia Floats Sorted.
From stdpp Require Import base option list gmap strings.

Local Open Scope Z_scope.

(* Decimal literals such as 3958.8 denote the nearest binary64 value, as in Go. *)
Set Warnings "-inexact-float".

(* ===================================================================== *)
(** * Package time: monotonic clock readings and durations              *)
(* ===================================================================== *)

Module Time.

(** A [time.Time] obtained from [time.Now()] carries a monotonic clock
    reading in nanoseconds; [Sub] of two such values is the difference of
    the readings, saturated to the range of [time.Duration] (int64). *)
Definition Time := Z.
Definition Duration := Z.

Definition minDuration : Duration := - 2 ^ 63.
Definition maxDuration : Duration := 2 ^ 63 - 1.

Definition Sub (t u : Time) : Duration :=
  Z.max minDuration (Z.min maxDuration (t - u)).

Definition Second : Duration := 1000000000.

End Time.

(* ===================================================================== *)
(** * Package handlers: the rate limiter                                *)
(* ===================================================================== *)

Module Handlers.
Import Time.

(** Go's conversion [int(x)] of an unsigned 64-bit value: the same bits
    read as two's complement.  It is the identity on [0 .. 2^63 - 1]. *)
Definition int (x : Z) : Z := (x + 2 ^ 63) `mod` 2 ^ 64 - 2 ^ 63.

(** [type RateLimiter struct { requests map[string][]time.Time;
                               maxRequests uint; timeWindow time.Duration;
                               mu sync.Mutex }]
    The mutex is held for the whole of [Allow], so calls are atomic steps
    on the record below. *)
Record RateLimiter := mkRateLimiter {
  requests : gmap string (list Time);
  maxRequests : Z;
  timeWindow : Duration
}.

Definition NewRateLimiter (maxReq : Z) (window : Duration) : RateLimiter :=
  {| requests := ∅; maxRequests := maxReq; timeWindow := window |}.

(** [rl.requests[ip]]: a missing key reads as the nil slice. *)
Definition stored (rl : RateLimiter) (ip : string) : list Time :=
  default [] (requests rl !! ip).

(** The loop that keeps the timestamps [t] with
    [now.Sub(t) <= rl.timeWindow], in their order. *)
Definition prune (rl : RateLimiter) (now : Time) (ip : string) : list Time :=
  filter (λ t, Sub now t ≤ timeWindow rl) (stored rl ip).

Definition store (rl : RateLimiter) (ip : string) (l : list Time) : RateLimiter :=
  {| requests := <[ip := l]> (requests rl);
     maxRequests := maxRequests rl;
     timeWindow := timeWindow rl |}.

(** [func (rl *RateLimiter) Allow(ip string) bool], current revision:
    the limit is a [uint] converted with [int(rl.maxRequests)]. *)
Definition Allow (rl : RateLimiter) (now : Time) (ip : string)
  : bool * RateLimiter :=
  let validRequests := prune rl now ip in
  let rl := store rl ip validRequests in
  if bool_decide (int (maxRequests rl) ≤ Z.of_nat (length validRequests))
  then (false, rl)
  else (true, store rl ip (stored rl ip ++ [now])).

(** The earlier revision: [maxRequests int], compared without conversion. *)
Definition AllowLegacy (rl : RateLimiter) (now : Time) (ip : string)
  : bool * RateLimiter :=
  let validRequests := prune rl now ip in
  let rl := store rl ip validRequests in
  if bool_decide (maxRequests rl ≤ Z.of_nat (length validRequests))
  then (false, rl)
  else (true, store rl ip (stored rl ip ++ [now])).

(** A sequence of calls, each with the clock reading it observes. *)
Fixpoint run (rl : RateLimiter) (calls : list (Time * string))
  : list bool * RateLimiter :=
  match calls with
  | [] => ([], rl)
  | (now, ip) :: rest =>
      let '(b, rl1) := Allow rl now ip in
      let '(bs, rl2) := run rl1 rest in
      (b :: bs, rl2)
  end.

(** A burst: consecutive calls of one client. *)
Definition burst (rl : RateLimiter) (ip : string) (ts : list Time)
  : list bool * RateLimiter :=
  run rl (map (λ t, (t, ip)) ts).

End Handlers.

(* ===================================================================== *)
(** * Packages unicode/utf8, unicode and strings                          *)
(* ===================================================================== *)

Module Utf8.

Definition byte (c : ascii) : Z := Z.of_N (N_of_ascii c).

(** [s[i]] for an index within the string (0 outside, never used there). *)
Definition at_ (s : string) (i : Z) : Z :=
  match String.get (Z.to_nat i) s with
  | Some c => byte c
  | None => 0
  end.

(** [s[i:j]] *)
Definition slice (s : string) (i j : Z) : string :=
  String.substring (Z.to_nat i) (Z.to_nat (j - i)) s.

Definition len (s : string) : Z := Z.of_nat (String.length s).

Definition RuneError : Z := 0xFFFD.
Definition RuneSelf : Z := 0x80.
Definition UTFMax : Z := 4.

Definition between (lo hi b : Z) : bool := (lo <=? b) && (b <=? hi).

(** [utf8.DecodeRuneInString]: the first rune of [s] and its width in bytes;
    an invalid or truncated encoding yields [(RuneError, 1)], the empty
    string [(RuneError, 0)]. *)
Definition DecodeRuneInString (s : string) : Z * Z :=
  let n := len s in
  if n <? 1 then (RuneError, 0) else
  let s0 := at_ s 0 in
  if s0 <? RuneSelf then (s0, 1) else
  if (s0 <? 0xC2) || (0xF4 <? s0) then (RuneError, 1) else
  let sz := if s0 <? 0xE0 then 2 else if s0 <? 0xF0 then 3 else 4 in
  let lo := if s0 =? 0xE0 then 0xA0 else if s0 =? 0xF0 then 0x90 else 0x80 in
  let hi := if s0 =? 0xED then 0x9F else if s0 =? 0xF4 then 0x8F else 0xBF in
  if n <? sz then (RuneError, 1) else
  let s1 := at_ s 1 in
  if negb (between lo hi s1) then (RuneError, 1) else
  if sz <=? 2 then
    (Z.lor (Z.shiftl (Z.land s0 0x1F) 6) (Z.land s1 0x3F), 2) else
  let s2 := at_ s 2 in
  if negb (between 0x80 0xBF s2) then (RuneError, 1) else
  if sz <=? 3 then
    (Z.lor (Z.lor (Z.shiftl (Z.land s0 0x0F) 12) (Z.shiftl (Z.land s1 0x3F) 6))
           (Z.land s2 0x3F), 3) else
  let s3 := at_ s 3 in
  if negb (between 0x80 0xBF s3) then (RuneError, 1) else
  (Z.lor (Z.lor (Z.lor (Z.shiftl (Z.land s0 0x07) 18) (Z.shiftl (Z.land s1 0x3F) 12))
                (Z.shiftl (Z.land s2 0x3F) 6))
         (Z.land s3 0x3F), 4).

(** [utf8.RuneStart]: not a continuation byte. *)
Definition RuneStart (b : Z) : bool := negb (Z.land b 0xC0 =? 0x80).

(** The loop of [DecodeLastRuneInString] that backs up to a start byte. *)
Fixpoint backUp (fuel : nat) (s : string) (start lim : Z) : Z :=
  match fuel with
  | O => start
  | S fuel =>
      if start <? lim then start
      else if RuneStart (at_ s start) then start
      else backUp fuel s (start - 1) lim
  end.

(** [utf8.DecodeLastRuneInString] *)
Definition DecodeLastRuneInString (s : string) : Z * Z :=
  let end_ := len s in
  if end_ =? 0 then (RuneError, 0) else
  let start := end_ - 1 in
  let r := at_ s start in
  if r <? RuneSelf then (r, 1) else
  let lim := Z.max 0 (end_ - UTFMax) in
  let start := backUp 5 s (start - 1) lim in
  let start := Z.max 0 start in
  let '(r, size) := DecodeRuneInString (slice s start end_) in
  if negb (start + size =? end_) then (RuneError, 1) else (r, size).

End Utf8.

Module Unicode.

(** [unicode.IsSpace]: the Latin-1 cases, then the White_Space table. *)
Definition IsSpace (r : Z) : bool :=
  if (0 <=? r) && (r <=? 0xFF) then
    (r =? 9) || (r =? 10) || (r =? 11) || (r =? 12) || (r =? 13) || (r =? 32)
    || (r =? 0x85) || (r =? 0xA0)
  else
    (r =? 0x1680) || Utf8.between 0x2000 0x200A r || (r =? 0x2028) || (r =? 0x2029)
    || (r =? 0x202F) || (r =? 0x205F) || (r =? 0x3000).

End Unicode.

Module Strings.
Import Utf8.

(** [indexFunc(s, f, truth)]: the byte index of the first rune [r] of [s]
    with [f r = truth], or -1. *)
Fixpoint indexFuncFrom (fuel : nat) (f : Z → bool) (truth : bool) (s : string) (i : Z) : Z :=
  match fuel with
  | O => -1
  | S fuel =>
      if len s <=? i then -1 else
      let '(r, wid) := DecodeRuneInString (slice s i (len s)) in
      if Bool.eqb (f r) truth then i
      else indexFuncFrom fuel f truth s (i + wid)
  end.

Definition indexFunc (s : string) (f : Z → bool) (truth : bool) : Z :=
  indexFuncFrom (String.length s) f truth s 0.

(** [lastIndexFunc(s, f, truth)] *)
Fixpoint lastIndexFuncFrom (fuel : nat) (f : Z → bool) (truth : bool) (s : string) (i : Z) : Z :=
  match fuel with
  | O => -1
  | S fuel =>
      if i <=? 0 then -1 else
      let '(r, size) := DecodeLastRuneInString (slice s 0 i) in
      let i := i - size in
      if Bool.eqb (f r) truth then i
      else lastIndexFuncFrom fuel f truth s i
  end.

Definition lastIndexFunc (s : string) (f : Z → bool) (truth : bool) : Z :=
  lastIndexFuncFrom (String.length s) f truth s (len s).

Definition TrimLeftFunc (s : string) (f : Z → bool) : string :=
  let i := indexFunc s f false in
  if i =? -1 then EmptyString else slice s i (len s).

Definition TrimRightFunc (s : string) (f : Z → bool) : string :=
  let i := lastIndexFunc s f false in
  let i :=
    if (0 <=? i) && (RuneSelf <=? at_ s i)
    then i + snd (DecodeRuneInString (slice s i (len s)))
    else i + 1 in
  slice s 0 i.

Definition TrimFunc (s : string) (f : Z → bool) : string :=
  TrimRightFunc (TrimLeftFunc s f) f.

(** The table [asciiSpace]. *)
Definition asciiSpace (c : Z) : bool :=
  (c =? 9) || (c =? 10) || (c =? 11) || (c =? 12) || (c =? 13) || (c =? 32).

(** [strings.TrimSpace]: the ASCII fast path from both ends, falling back to
    the rune-wise trim at the first non-ASCII byte met. *)
Fixpoint trimStart (fuel : nat) (s : string) (start : Z) : Z + string :=
  match fuel with
  | O => inl start
  | S fuel =>
      if len s <=? start then inl start else
      let c := at_ s start in
      if RuneSelf <=? c then inr (TrimFunc (slice s start (len s)) Unicode.IsSpace)
      else if negb (asciiSpace c) then inl start
      else trimStart fuel s (start + 1)
  end.

Fixpoint trimStop (fuel : nat) (s : string) (start stop : Z) : Z + string :=
  match fuel with
  | O => inl stop
  | S fuel =>
      if stop <=? start then inl stop else
      let c := at_ s (stop - 1) in
      if RuneSelf <=? c then inr (TrimRightFunc (slice s start stop) Unicode.IsSpace)
      else if negb (asciiSpace c) then inl stop
      else trimStop fuel s start (stop - 1)
  end.

Definition TrimSpace (s : string) : string :=
  match trimStart (S (String.length s)) s 0 with
  | inr r => r
  | inl start =>
      match trimStop (S (String.length s)) s start (len s) with
      | inr r => r
      | inl stop => slice s start stop
      end
  end.

(** [strings.ToLower]: ASCII-only strings are lowered byte by byte; any
    other string goes through [strings.Map(unicode.ToLower, s)], whose case
    tables are those of package unicode and are taken as given. *)
Class UnicodeTables := { MapToLower : string → string }.

Fixpoint isASCII (s : string) : bool :=
  match s with
  | EmptyString => true
  | String c t => (byte c <? RuneSelf) && isASCII t
  end.

Definition lowerByte (c : ascii) : ascii :=
  if between 65 90 (byte c) then ascii_of_N (N_of_ascii c + 32) else c.

Fixpoint mapBytes (f : ascii → ascii) (s : string) : string :=
  match s with
  | EmptyString => EmptyString
  | String c t => String (f c) (mapBytes f t)
  end.

Definition ToLower `{UnicodeTables} (s : string) : string :=
  if isASCII s then mapBytes lowerByte s else MapToLower s.

End Strings.

(* ===================================================================== *)
(** * Package regexp, as far as the repository's patterns go            *)
(* ===================================================================== *)

Module Regexp.
Import Utf8.

(** What a call that may panic yields. *)
Inductive Exec (A : Type) : Type :=
| Done (a : A)
| Panic (msg : string).
Arguments Done {A} a.
Arguments Panic {A} msg.

(** A pattern as written.  [Backref n] is the escape [\n] with [n] a single
    non-zero digit that no octal digit follows: RE2 syntax has no
    backreferences and the parser answers it with an invalid-escape
    error. *)
Inductive Syntax : Type :=
| Literal (s : string)
| AnyCharNotNL
| CharClass (ranges : list (ascii * ascii))
| Concat (r1 r2 : Syntax)
| Alternate (r1 r2 : Syntax)
| Capture (r : Syntax)
| Plus (r : Syntax)
| Repeat (r : Syntax) (n : nat)
| FoldCase (r : Syntax)
| Backref (n : nat).

(** [\s] is [[\t\n\f\r ]] and [\w] is [[0-9A-Za-z_]]: ASCII only. *)
Definition perl_s (c : ascii) : bool :=
  let b := byte c in (b =? 9) || (b =? 10) || (b =? 12) || (b =? 13) || (b =? 32).

Definition perl_w (c : ascii) : bool :=
  let b := byte c in
  between 48 57 b || between 65 90 b || between 97 122 b || (b =? 95).

Definition class_s : Syntax :=
  CharClass [("009", "010"); ("012", "013"); (" ", " ")]%char.

(** The compiled form: a regular expression over byte predicates, matched
    by derivatives.  Matching is on bytes and folds ASCII case only. *)
Inductive Prog : Type :=
| PFail
| PEmpty
| PByte (p : ascii → bool)
| PCat (a b : Prog)
| PAlt (a b : Prog)
| PStar (a : Prog).

Inductive ParseError : Type :=
| ErrInvalidEscape (escape : string).

Definition swapCase (c : ascii) : ascii :=
  let b := byte c in
  if between 65 90 b then ascii_of_N (N_of_ascii c + 32)
  else if between 97 122 b then ascii_of_N (N_of_ascii c - 32)
  else c.

Definition inRanges (ranges : list (ascii * ascii)) (c : ascii) : bool :=
  existsb (λ r, between (byte (fst r)) (byte (snd r)) (byte c)) ranges.

Definition foldPred (fold : bool) (p : ascii → bool) : ascii → bool :=
  λ c, p c || (fold && p (swapCase c)).

Fixpoint literalProg (fold : bool) (s : string) : Prog :=
  match s with
  | EmptyString => PEmpty
  | String c t => PCat (PByte (foldPred fold (Ascii.eqb c))) (literalProg fold t)
  end.

Fixpoint repeatProg (p : Prog) (n : nat) : Prog :=
  match n with
  | O => PEmpty
  | S n => PCat p (repeatProg p n)
  end.

Definition digitString (n : nat) : string :=
  String (ascii_of_nat (48 + n)) EmptyString.

Fixpoint compile (fold : bool) (re : Syntax) : ParseError + Prog :=
  match re with
  | Literal s => inr (literalProg fold s)
  | AnyCharNotNL => inr (PByte (λ c, negb (byte c =? 10)))
  | CharClass ranges => inr (PByte (foldPred fold (inRanges ranges)))
  | Concat r1 r2 =>
      match compile fold r1, compile fold r2 with
      | inl e, _ => inl e
      | _, inl e => inl e
      | inr p, inr q => inr (PCat p q)
      end
  | Alternate r1 r2 =>
      match compile fold r1, compile fold r2 with
      | inl e, _ => inl e
      | _, inl e => inl e
      | inr p, inr q => inr (PAlt p q)
      end
  | Capture r => compile fold r
  | Plus r =>
      match compile fold r with
      | inl e => inl e
      | inr p => inr (PCat p (PStar p))
      end
  | Repeat r n =>
      match compile fold r with
      | inl e => inl e
      | inr p => inr (repeatProg p n)
      end
  | FoldCase r => compile true r
  | Backref n => inl (ErrInvalidEscape (String "\" (digitString n)))
  end.

(** [regexp.Compile] and [regexp.MustCompile], which panics on an error. *)
Definition Compile (re : Syntax) : ParseError + Prog := compile false re.

Definition MustCompile (re : Syntax) : Exec Prog :=
  match Compile re with
  | inr p => Done p
  | inl (ErrInvalidEscape esc) =>
      Panic ("regexp: Compile: error parsing regexp: invalid escape sequence: " ++ esc)
  end.

Fixpoint nullable (r : Prog) : bool :=
  match r with
  | PFail => false
  | PEmpty => true
  | PByte _ => false
  | PCat a b => nullable a && nullable b
  | PAlt a b => nullable a || nullable b
  | PStar _ => true
  end.

Fixpoint deriv (c : ascii) (r : Prog) : Prog :=
  match r with
  | PFail => PFail
  | PEmpty => PFail
  | PByte p => if p c then PEmpty else PFail
  | PCat a b =>
      if nullable a then PAlt (PCat (deriv c a) b) (deriv c b)
      else PCat (deriv c a) b
  | PAlt a b => PAlt (deriv c a) (deriv c b)
  | PStar a => PCat (deriv c a) (PStar a)
  end.

Fixpoint matchPrefix (r : Prog) (s : string) : bool :=
  nullable r ||
  match s with
  | EmptyString => false
  | String c t => matchPrefix (deriv c r) t
  end.

(** [Regexp.MatchString]: some substring of [s] matches. *)
Fixpoint MatchString (r : Prog) (s : string) : bool :=
  matchPrefix r s ||
  match s with
  | EmptyString => false
  | String _ t => MatchString r t
  end.

(** [ReplaceAllString] with the empty replacement, for a pattern that is
    one character class
    of ASCII bytes ([negated = false]) or the complement of one
    ([negated = true]).  A byte of 0x80 and above belongs to a rune outside
    ASCII or is invalid (read as U+FFFD): it matches exactly the negated
    classes.  So the call deletes bytes one by one. *)
Definition classMatches (negated : bool) (class : ascii → bool) (c : ascii) : bool :=
  if byte c <? RuneSelf then xorb negated (class c) else negated.

Fixpoint DeleteAllClass (negated : bool) (class : ascii → bool) (s : string) : string :=
  match s with
  | EmptyString => EmptyString
  | String c t =>
      if classMatches negated class c then DeleteAllClass negated class t
      else String c (DeleteAllClass negated class t)
  end.

(** [ReplaceAllString(s, repl)] for the pattern [class+] with a class of
    ASCII bytes: every maximal run of class bytes becomes one [repl]. *)
Fixpoint replaceRuns (class : ascii → bool) (repl : string) (inRun : bool) (s : string) : string :=
  match s with
  | EmptyString => EmptyString
  | String c t =>
      if class c then
        if inRun then replaceRuns class repl true t
        else (repl ++ replaceRuns class repl true t)%string
      else String c (replaceRuns class repl false t)
  end.

Definition ReplaceAllClassPlus (class : ascii → bool) (repl : string) (s : string) : string :=
  replaceRuns class repl false s.

End Regexp.

(* ===================================================================== *)
(** * Package math                                                       *)
(* ===================================================================== *)

Module Math.

(** [math.Sin], [math.Cos] and [math.Atan2] are library routines on
    [float64]; they are taken as given.  [math.Sqrt] is the correctly
    rounded IEEE 754 square root. *)
Class Lib := {
  Sin : float → float;
  Cos : float → float;
  Atan2 : float → float → float
}.

Definition Sqrt (x : float) : float := PrimFloat.sqrt x.

(** Neither NaN nor an infinity. *)
Definition SFfinite (x : spec_float) : bool :=
  match x with
  | S754_zero _ | S754_finite _ _ _ => true
  | _ => false
  end.

Definition IsFinite (x : float) : bool := SFfinite (Prim2SF x).

(** The special cases of package math that the geofence relies on:
    [Sin(+0) = +0], [Atan2(+0, 1) = +0], and a cosine that stays within
    [-1, 1] on finite arguments. *)
Class SpecialCases `{Lib} : Prop := {
  Sin_zero : Sin 0 = 0%float;
  Cos_range : ∀ x, IsFinite x = true →
    (-1 <=? Cos x)%float = true ∧ (Cos x <=? 1)%float = true;
  Atan2_zero_one : Atan2 0 1 = 0%float
}.

(** [math.Pi], rounded to [float64] where it is used as one. *)
Definition Pi : float := 0x1.921fb54442d18p+1%float.

(** The constant expression [math.Pi / 180.0] is evaluated exactly and
    rounded once, to the [float64] nearest to pi/180. *)
Definition Pi_over_180 : float := 0x1.1df46a2529d39p-6%float.

End Math.

(* ===================================================================== *)
(** * Package ports                                                      *)
(* ===================================================================== *)

Module Ports.

Record AddressValidationResult := mkResult {
  IsValid : bool;
  FormattedAddress : string;
  Latitude : float;
  Longitude : float;
  InRange : bool;
  Error : string
}.

Definition DISTANCE_KILOMETER : string := "km".
Definition DISTANCE_MILES : string := "mi".

(** Go [error] values: the three sentinels of package services, told apart
    by identity, and whatever the external validator returns. *)
Inductive error : Type :=
| ErrEmptyAddress
| ErrSuspiciousPattern
| ErrOutsideGeofence
| ExternalError (msg : string).

Definition ErrorString (e : error) : string :=
  match e with
  | ErrEmptyAddress => "address is empty"
  | ErrSuspiciousPattern => "suspicious address detected"
  | ErrOutsideGeofence => "address outside allowed geographic area"
  | ExternalError msg => msg
  end.

(** [type AddressValidator interface { ValidateAddress(ctx, address) (AddressValidationResult, error) }]:
    the external geocoding capability, a function of the address it is
    handed. *)
Definition AddressValidator : Type :=
  string → AddressValidationResult * option error.

(** What a call of the service's [ValidateAddress] returns, with the
    addresses it handed to the external validator on the way. *)
Record Return := mkReturn {
  result : AddressValidationResult;
  err : option error;
  delegated : list string
}.

Definition withInRange (r : AddressValidationResult) (b : bool) : AddressValidationResult :=
  {| IsValid := IsValid r; FormattedAddress := FormattedAddress r;
     Latitude := Latitude r; Longitude := Longitude r;
     InRange := b; Error := Error r |}.

(** [ports.AddressValidationResult{IsValid: false, Error: e.Error()}] *)
Definition failure (e : error) : AddressValidationResult :=
  {| IsValid := false; FormattedAddress := ""; Latitude := 0; Longitude := 0;
     InRange := false; Error := ErrorString e |}.

End Ports.

(* ===================================================================== *)
(** * Package services, current revision                                 *)
(* ===================================================================== *)

Module Services.
Import Math Ports Strings Regexp.

Definition earthRadiusKm : float := 6371.0%float.
Definition earthRadiusMi : float := 3958.8%float.

(** [config.MapConfig] *)
Record MapConfig := mkMapConfig {
  GoogleMapsAPIKey : string;
  MaxDistance : float;
  DistanceUnit : string;
  CenterLat : float;
  CenterLng : float;
  Country : string;
  Locality : string
}.

Record AddressService := mkAddressService {
  validator : AddressValidator;
  config : MapConfig
}.

Section WithLibraries.
Context `{Lib} `{UnicodeTables}.

(** [func calculateDistance(lat1, lng1, lat2, lng2 float64, unit string) float64] *)
Definition calculateDistance (lat1 lng1 lat2 lng2 : float) (unit : string) : float :=
  let lat1Rad := (lat1 * Pi_over_180)%float in
  let lng1Rad := (lng1 * Pi_over_180)%float in
  let lat2Rad := (lat2 * Pi_over_180)%float in
  let lng2Rad := (lng2 * Pi_over_180)%float in
  let dLat := (lat2Rad - lat1Rad)%float in
  let dLng := (lng2Rad - lng1Rad)%float in
  let a := (Sin (dLat / 2) * Sin (dLat / 2)
            + Cos lat1Rad * Cos lat2Rad * Sin (dLng / 2) * Sin (dLng / 2))%float in
  let c := (2 * Atan2 (Sqrt a) (Sqrt (1 - a)))%float in
  if (ToLower unit =? DISTANCE_MILES)%string
  then (earthRadiusMi * c)%float
  else (earthRadiusKm * c)%float.

(** The characters [[^\w\s,.-]] lets through. *)
Definition allowed (c : ascii) : bool :=
  perl_w c || perl_s c || Ascii.eqb c "," || Ascii.eqb c "." || Ascii.eqb c "-".

(** [func sanitizeAddress(address string) string] *)
Definition sanitizeAddress (address : string) : string :=
  (* 1. Trim leading/trailing whitespace *)
  let address := TrimSpace address in
  (* 2. every run matching `\s+` is replaced by one space *)
  let address := ReplaceAllClassPlus perl_s " " address in
  (* 3. every match of `[^\w\s,.-]` is deleted *)
  let address := DeleteAllClass true allowed address in
  address.

(** [func (s *AddressService) ValidateAddress(ctx, address) (ports.AddressValidationResult, error)] *)
Definition ValidateAddress (s : AddressService) (address : string) : Return :=
  let cleanAddress := sanitizeAddress address in
  if (cleanAddress =? "")%string || (cleanAddress =? " ")%string then
    {| result := failure ErrEmptyAddress; err := Some ErrEmptyAddress; delegated := [] |}
  else
    let '(result, err) := validator s cleanAddress in
    match err with
    | Some e => {| result := result; err := Some e; delegated := [cleanAddress] |}
    | None =>
        let result :=
          if IsValid result then
            let distance :=
              calculateDistance (Latitude result) (Longitude result)
                (CenterLat (config s)) (CenterLng (config s))
                (DistanceUnit (config s)) in
            withInRange result (distance <=? MaxDistance (config s))%float
          else result in
        {| result := result; err := None; delegated := [cleanAddress] |}
    end.

End WithLibraries.

End Services.

(* ===================================================================== *)
(** * Package services, earlier revision                                 *)
(* ===================================================================== *)

Module ServicesLegacy.
Import Math Ports Strings Regexp.

Definition earthRadiusKm : float := 6371.0%float.
Definition earthRadiusMi : float := 3958.8%float.

(** [config.GeofenceConfig] and the part of [config.Config] the service reads *)
Record GeofenceConfig := mkGeofenceConfig {
  MaxDistance : float;
  DistanceUnit : string;
  CenterLat : float;
  CenterLng : float
}.

Record Config := mkConfig {
  Geofence : GeofenceConfig
}.

Record AddressService := mkAddressService {
  validator : AddressValidator;
  config : Config
}.

(** The class of the first pattern: the ten characters
    less-than, greater-than, both braces, both brackets, semicolon,
    apostrophe, double quote and backslash. *)
Definition specialChars (c : ascii) : bool :=
  let b := Utf8.byte c in
  (b =? 60) || (b =? 62) || (b =? 123) || (b =? 125) || (b =? 91) || (b =? 93)
  || (b =? 59) || (b =? 39) || (b =? 34) || (b =? 92).

(** [func sanitizeAddress(address string) string] *)
Definition sanitizeAddress (address : string) : string :=
  let cleaned := DeleteAllClass false specialChars address in
  let cleaned := TrimSpace cleaned in
  if 200 <? Utf8.len cleaned then Utf8.slice cleaned 0 200 else cleaned.

Fixpoint alternation (r : Syntax) (rs : list Syntax) : Syntax :=
  match rs with
  | [] => r
  | r' :: rs => Alternate r (alternation r' rs)
  end.

Fixpoint sequence (r : Syntax) (rs : list Syntax) : Syntax :=
  match rs with
  | [] => r
  | r' :: rs => Concat r (sequence r' rs)
  end.

(** [(?i)((.)\2{5}|0x[0-9a-f]+|select\s.+\sfrom|script|alert\(|function|var\s|let\s|const\s)] *)
Definition suspiciousPattern : Syntax :=
  FoldCase (Capture (alternation
    (Concat (Capture AnyCharNotNL) (Repeat (Backref 2) 5))
    [ Concat (Literal "0x") (Plus (CharClass [("0", "9"); ("a", "f")]%char));
      sequence (Literal "select") [class_s; Plus AnyCharNotNL; class_s; Literal "from"];
      Literal "script";
      Literal "alert(";
      Literal "function";
      Concat (Literal "var") class_s;
      Concat (Literal "let") class_s;
      Concat (Literal "const") class_s ])).

(** [func isSuspicious(address string) bool] *)
Definition isSuspicious (address : string) : Exec bool :=
  match MustCompile suspiciousPattern with
  | Panic msg => Panic msg
  | Done re => Done (MatchString re address)
  end.

Section WithLibraries.
Context `{Lib} `{UnicodeTables}.

(** [func calculateDistance(lat1, lng1, lat2, lng2 float64, unit string) float64] *)
Definition calculateDistance (lat1 lng1 lat2 lng2 : float) (unit : string) : float :=
  let lat1Rad := (lat1 * Pi_over_180)%float in
  let lng1Rad := (lng1 * Pi_over_180)%float in
  let lat2Rad := (lat2 * Pi_over_180)%float in
  let lng2Rad := (lng2 * Pi_over_180)%float in
  let dLat := (lat2Rad - lat1Rad)%float in
  let dLng := (lng2Rad - lng1Rad)%float in
  let a := (Sin (dLat / 2) * Sin (dLat / 2)
            + Cos lat1Rad * Cos lat2Rad * Sin (dLng / 2) * Sin (dLng / 2))%float in
  let c := (2 * Atan2 (Sqrt a) (Sqrt (1 - a)))%float in
  if (ToLower unit =? "mi")%string
  then (earthRadiusMi * c)%float
  else (earthRadiusKm * c)%float.

(** [func (s *AddressService) isWithinGeofence(lat, lng float64) bool] *)
Definition isWithinGeofence (s : AddressService) (lat lng : float) : bool :=
  let distance :=
    calculateDistance lat lng
      (CenterLat (Geofence (config s))) (CenterLng (Geofence (config s)))
      (DistanceUnit (Geofence (config s))) in
  (distance <=? MaxDistance (Geofence (config s)))%float.

(** [func (s *AddressService) ValidateAddress(ctx, address) (ports.AddressValidationResult, error)] *)
Definition ValidateAddress (s : AddressService) (address : string) : Exec Return :=
  let cleanAddress := sanitizeAddress address in
  if (cleanAddress =? "")%string then
    Done {| result := failure ErrEmptyAddress; err := Some ErrEmptyAddress; delegated := [] |}
  else
    match isSuspicious cleanAddress with
    | Panic msg => Panic msg
    | Done true =>
        Done {| result := failure ErrSuspiciousPattern; err := Some ErrSuspiciousPattern;
                delegated := [] |}
    | Done false =>
        let '(result, err) := validator s cleanAddress in
        match err with
        | Some e => Done {| result := result; err := Some e; delegated := [cleanAddress] |}
        | None =>
            let result :=
              if IsValid result then
                withInRange result (isWithinGeofence s (Latitude result) (Longitude result))
              else result in
            Done {| result := result; err := None; delegated := [cleanAddress] |}
        end
    end.

End WithLibraries.

End ServicesLegacy.

(* ===================================================================== *)
(** * Package adapters, earlier revision                                 *)
(* ===================================================================== *)

Module AdaptersLegacy.
Import Math.

Definition earthRadiusKm : float := 6371.0%float.
Definition earthRadiusMi : float := 3958.8%float.

Section WithLibraries.
Context `{Lib}.

(** [func (gma *GoogleMapsAdapter) calculateDistance(lat1, lng1, lat2, lng2 float64) float64];
    [unit] is [gma.config.Geofence.DistanceUnit].  Here [lat1 * math.Pi / 180]
    is a product followed by a quotient. *)
Definition calculateDistance (unit : string) (lat1 lng1 lat2 lng2 : float) : float :=
  let lat1Rad := (lat1 * Pi / 180)%float in
  let lng1Rad := (lng1 * Pi / 180)%float in
  let lat2Rad := (lat2 * Pi / 180)%float in
  let lng2Rad := (lng2 * Pi / 180)%float in
  let dLat := (lat2Rad - lat1Rad)%float in
  let dLng := (lng2Rad - lng1Rad)%float in
  let a := (Sin (dLat / 2) * Sin (dLat / 2)
            + Cos lat1Rad * Cos lat2Rad * Sin (dLng / 2) * Sin (dLng / 2))%float in
  let c := (2 * Atan2 (Sqrt a) (Sqrt (1 - a)))%float in
  if (unit =? "km")%string
  then (earthRadiusKm * c)%float
  else (earthRadiusMi * c)%float.

End WithLibraries.

End AdaptersLegacy.

(* ===================================================================== *)
(** * Vocabulary of the specification                                    *)
(* ===================================================================== *)

Module Spec.
Import Time Handlers Math Ports Strings Regexp.

(** Rate limiter: no client holds more timestamps than the limit. *)
Definition within_limit (rl : RateLimiter) : Prop :=
  ∀ ip l, requests rl !! ip = Some l → Z.of_nat (length l) ≤ maxRequests rl.

(** The bytes of a string. *)
Definition bytes (s : string) : list ascii := list_ascii_of_string s.

(** The allow-list of the sanitizer, on bytes: ASCII letters, digits,
    underscore, whitespace, comma, period, hyphen. *)
Definition allowListed (c : ascii) : bool :=
  perl_w c || perl_s c || Ascii.eqb c "," || Ascii.eqb c "." || Ascii.eqb c "-".

(** What the specification says of every sanitizer output. *)
Definition sanitizer_claim (sanitize : string → string) : Prop :=
  ∀ input : string,
    (String.length (sanitize input) ≤ 200)%nat ∧
    Forall (λ c, allowListed c = true) (bytes (sanitize input)).

Fixpoint repeatString (n : nat) (s : string) : string :=
  match n with
  | O => EmptyString
  | S n => (s ++ repeatString n s)%string
  end.

(** A signed zero. *)
Definition IsZero (x : float) : Prop := ∃ s, Prim2SF x = S754_zero s.

Section WithLibraries.
Context `{Lib}.

(** The Haversine formula of the specification for a sphere of radius [R]:
    degrees to radians, [a = sin²(dLat/2) + cos(lat1)·cos(lat2)·sin²(dLng/2)],
    [c = 2·atan2(√a, √(1-a))], distance [R·c]; the products are taken from
    left to right. *)
Definition Haversine (R : float) (lat1 lng1 lat2 lng2 : float) : float :=
  let toRad (deg : float) := (deg * Pi_over_180)%float in
  let dLat := (toRad lat2 - toRad lat1)%float in
  let dLng := (toRad lng2 - toRad lng1)%float in
  let a := (Sin (dLat / 2) * Sin (dLat / 2)
            + Cos (toRad lat1) * Cos (toRad lat2) * Sin (dLng / 2) * Sin (dLng / 2))%float in
  let c := (2 * Atan2 (Sqrt a) (Sqrt (1 - a)))%float in
  (R * c)%float.

End WithLibraries.

End Spec.

(* ===================================================================== *)
(** * Stand-ins for the library routines                                 *)
(* ===================================================================== *)

(** Short series for sine, cosine and arctangent, accurate to several
    digits for the angles of a city-sized geofence.  They serve to run the
    embedding on the scenarios of the specification and to instantiate the
    theorems below at concrete inputs; the theorems themselves hold for
    every implementation of the routines. *)
Module Approx.
Import Math Strings.
Local Open Scope float_scope.

Definition sinSeries (x : float) : float :=
  let x2 := x * x in
  x * (1 - x2 / 6 * (1 - x2 / 20 * (1 - x2 / 42 * (1 - x2 / 72)))).

Definition cosSeries (x : float) : float :=
  let x2 := x * x in
  1 - x2 / 2 * (1 - x2 / 12 * (1 - x2 / 30 * (1 - x2 / 56 * (1 - x2 / 90)))).

Definition cosClamped (x : float) : float :=
  let y := cosSeries x in
  if (-1 <=? y) && (y <=? 1) then y else 1.

Definition atanSeries (z : float) : float :=
  let z2 := z * z in
  z * (1 - z2 * (1 / 3 - z2 * (1 / 5 - z2 / 7))).

Definition atan2Series (y x : float) : float := atanSeries (y / x).

Definition math : Lib :=
  {| Sin := sinSeries; Cos := cosClamped; Atan2 := atan2Series |}.

Definition unicode : UnicodeTables := {| MapToLower := λ s, s |}.

End Approx.

(** The scenario of the specification: a geofence of 10 km around the
    Bronx, a validator that resolves every address to the centre, and one
    that resolves every address to Manhattan. *)
Module Scenario.
Import Ports.

Definition found (formatted : string) (lat lng : float) : AddressValidator :=
  λ _, ({| IsValid := true; FormattedAddress := formatted;
           Latitude := lat; Longitude := lng; InRange := false; Error := "" |}, None).

Definition bronx : AddressValidator :=
  found "123 Main St, Bronx, NY 10456, USA" 40.8448 (-73.8648).

Definition manhattan : AddressValidator :=
  found "New York, NY 10007, USA" 40.7128 (-74.0060).

Definition service (v : AddressValidator) (maxDistance : float) : Services.AddressService :=
  {| Services.validator := v;
     Services.config := Services.mkMapConfig "key" maxDistance "km" 40.8448 (-73.8648) "us" "Bronx" |}.

End Scenario.

(* ===================================================================== *)
(** * Package strconv, as far as the configuration goes                  *)
(* ===================================================================== *)

Module Strconv.
Import Utf8.

Definition isDigit (c : ascii) : bool := between 48 57 (byte c).

(** The value of a string of decimal digits, [None] at any other byte. *)
Fixpoint digits (acc : Z) (s : string) : option Z :=
  match s with
  | EmptyString => Some acc
  | String c t =>
      if isDigit c then digits (acc * 10 + (byte c - 48)) t else None
  end.

(** [strconv.Atoi]: an optional sign, then one or more decimal digits, the
    value within the range of [int]; [None] stands for the error. *)
Definition Atoi (s : string) : option Z :=
  match s with
  | EmptyString => None
  | String c t =>
      let neg := Ascii.eqb c "-" in
      let ds := if Ascii.eqb c "-" || Ascii.eqb c "+" then t else s in
      match ds with
      | EmptyString => None
      | _ =>
          match digits 0 ds with
          | None => None
          | Some n =>
              let v := if neg then - n else n in
              if (- 2 ^ 63 <=? v) && (v <=? 2 ^ 63 - 1) then Some v else None
          end
      end
  end.

(** [strconv.ParseFloat(s, 64)] is taken as given. *)
Class FloatParser := { ParseFloat : string → option float }.

End Strconv.

(* ===================================================================== *)
(** * Package config, current revision                                   *)
(* ===================================================================== *)

Module Config.
Import Time Strconv Ports.

(** [os.Getenv]: the value of a variable, empty when it is not set. *)
Definition Env : Type := string → string.

(** [func ParseInt(s string) (num int, err error)] *)
Definition ParseInt (s : string) : option Z := Atoi s.

(** [func ParseStringToUint16(s string) (uint16, error)] *)
Definition ParseStringToUint16 (s : string) : option Z :=
  match ParseInt s with
  | None => None
  | Some num => if (num <? 0) || (65535 <? num) then None else Some num
  end.

(** [func ParseStringToUint8(s string) (uint8, error)] *)
Definition ParseStringToUint8 (s : string) : option Z :=
  match ParseInt s with
  | None => None
  | Some num => if (num <? 0) || (255 <? num) then None else Some num
  end.

Inductive Environment : Type := ENV_PRODUCTION | ENV_DEVELOPMENT.

Definition ToString (e : Environment) : string :=
  match e with
  | ENV_PRODUCTION => "PRODUCTION"
  | ENV_DEVELOPMENT => "DEVELOPMENT"
  end.

Record InfraConfig := mkInfraConfig {
  Environment_ : Environment;
  Port : Z;
  IsHttpSecure : bool
}.

(** [func (c Config) NewInfraConfig() InfraConfig] *)
Definition NewInfraConfig (getenv : Env) : InfraConfig :=
  let port :=
    let input := getenv "PORT" in
    if (input =? "")%string then 8080
    else
      match ParseStringToUint16 input with
      | None => 8080
      | Some port =>
          if port =? 0 then 8080
          else if port <=? 1023 then 8080
          else if port =? 65535 then 8080
          else port
      end in
  let secure := negb (getenv "REQUIRE_HTTPS" =? "false")%string in
  let environment :=
    let input := getenv "ENVIRONMENT" in
    if (input =? "")%string then ENV_PRODUCTION
    else if (input =? ToString ENV_DEVELOPMENT)%string then ENV_DEVELOPMENT
    else ENV_PRODUCTION in
  {| Environment_ := environment; Port := port; IsHttpSecure := secure |}.

Record RateLimitConfig := mkRateLimitConfig {
  MaxRequests : Z;
  TimeWindow : Duration
}.

(** [func (c Config) NewRateLimitConfig(logger) RateLimitConfig]; the
    variable for the time window is named in the function and never read. *)
Definition NewRateLimitConfig (getenv : Env) : RateLimitConfig :=
  let input := getenv "RATE_LIMIT_MAX_REQUESTS" in
  let maxRequests :=
    match Atoi input with
    | Some maxRequests => if 0 <? maxRequests then maxRequests else 10
    | None => 10
    end in
  {| MaxRequests := maxRequests; TimeWindow := 60 * Second |}.

(** [handlers.NewRateLimiter(config)] of the current revision. *)
Definition NewRateLimiter (config : RateLimitConfig) : Handlers.RateLimiter :=
  Handlers.NewRateLimiter (MaxRequests config) (TimeWindow config).

Section WithParser.
Context `{FloatParser}.

(** [func (c Config) NewMapConfig(logger) MapConfig]; [None] stands for
    [logger.Fatal], which ends the process.  Country and locality are named
    in the function and never read from the environment. *)
Definition NewMapConfig (getenv : Env) : option Services.MapConfig :=
  let apiKey := getenv "GOOGLE_MAPS_API_KEY" in
  if (apiKey =? "")%string then None else
  let maxDistance :=
    let input := getenv "MAP_MAX_DISTANCE" in
    if (input =? "")%string then 2%float
    else
      match ParseFloat input with
      | Some maxDistance => if (0 <? maxDistance)%float then maxDistance else 2%float
      | None => 2%float
      end in
  let distanceUnit :=
    let input := getenv "MAP_DISTANCE_UNIT" in
    if (input =? "")%string then DISTANCE_MILES
    else if (input =? DISTANCE_KILOMETER)%string then input
    else if (input =? DISTANCE_MILES)%string then input
    else DISTANCE_MILES in
  let input := getenv "MAP_CENTER_LAT" in
  if (input =? "")%string then None else
  match ParseFloat input with
  | None => None
  | Some centerLat =>
      let input := getenv "MAP_CENTER_LNG" in
      if (input =? "")%string then None else
      match ParseFloat input with
      | None => None
      | Some centerLng =>
          Some {| Services.GoogleMapsAPIKey := apiKey;
                  Services.MaxDistance := maxDistance;
                  Services.DistanceUnit := distanceUnit;
                  Services.CenterLat := centerLat;
                  Services.CenterLng := centerLng;
                  Services.Country := "us";
                  Services.Locality := "Bronx" |}
      end
  end.

End WithParser.

(** [strings.Contains(s, substr)] *)
Fixpoint Contains (s substr : string) : bool :=
  String.prefix substr s ||
  match s with
  | EmptyString => false
  | String _ t => Contains t substr
  end.

Record LoggerConfig := mkLoggerConfig {
  Level : string;
  Encoding : string;
  OutputPath : string;
  ErrorPath : string;
  IsDevelopment : bool
}.

Definition levels : list string :=
  ["info"; "INFO"; "debug"; "DEBUG"; "warn"; "WARN"; "error"; "ERROR";
   "dpanic"; "DPANIC"; "panic"; "PANIC"; "fatal"; "FATAL"]%string.

(** The closure [setPath] of [NewLoggerConfig]; [pathPatterns] is the
    result of matching its regular expression, taken as given. *)
Definition setPath (pathPatterns : string → bool) (getenv : Env)
    (path : string) (ENV_VAR : string) : string :=
  let input := getenv ENV_VAR in
  if (input =? "")%string then path
  else if negb (pathPatterns input) then path
  else if Contains input ".." then path
  else input.

(** [func (c Config) NewLoggerConfig(environment Environment) LoggerConfig] *)
Definition NewLoggerConfig (pathPatterns : string → bool) (getenv : Env)
    (environment : Environment) : LoggerConfig :=
  let level :=
    let input := getenv "LEVEL" in
    if negb (input =? "")%string && existsb (String.eqb input) levels then input else "info"%string in
  let encoding :=
    let input := getenv "ENCODING" in
    if negb (input =? "")%string && ((input =? "json") || (input =? "console"))%string
    then input else "json"%string in
  {| Level := level;
     Encoding := encoding;
     OutputPath := setPath pathPatterns getenv "stdout" "OUTPUT_PATH";
     ErrorPath := setPath pathPatterns getenv "stderr" "ERROR_PATH";
     IsDevelopment := match environment with ENV_PRODUCTION => false | _ => true end |}.

End Config.

(* ===================================================================== *)
(** * Package config, earlier revision                                   *)
(* ===================================================================== *)

Module ConfigLegacy.
Import Time Strconv.

Definition Env : Type := string → string.

Record RateLimitConfig := mkRateLimitConfig {
  MaxRequests : Z;
  TimeWindow : Duration
}.

Record Config := mkConfig {
  GoogleMapsAPIKey : string;
  Port : string;
  RequireHTTPS : bool;
  RateLimit : RateLimitConfig;
  Geofence : ServicesLegacy.GeofenceConfig
}.

(** The product of two [time.Duration] values, in 64-bit two's
    complement. *)
Definition mulDuration (a b : Duration) : Duration :=
  (a * b + 2 ^ 63) `mod` 2 ^ 64 - 2 ^ 63.

Section WithParser.
Context `{FloatParser}.

(** [func LoadConfig()], returning a Config and an error; [None] stands for the error
    returned when the API key is missing. *)
Definition LoadConfig (getenv : Env) : option Config :=
  let apiKey := getenv "GOOGLE_MAPS_API_KEY" in
  if (apiKey =? "")%string then None else
  let port := if (getenv "PORT" =? "")%string then "8080"%string else getenv "PORT" in
  let requireHTTPS :=
    let httpsStr := getenv "REQUIRE_HTTPS" in
    if (httpsStr =? "")%string then false
    else ((httpsStr =? "true") || (httpsStr =? "1") || (httpsStr =? "yes"))%string in
  let maxRequests :=
    let maxReqStr := getenv "RATE_LIMIT_MAX_REQUESTS" in
    if (maxReqStr =? "")%string then 10
    else match Atoi maxReqStr with
         | Some val => if 0 <? val then val else 10
         | None => 10
         end in
  let timeWindow :=
    let timeWindowStr := getenv "RATE_LIMIT_TIME_WINDOW_SECONDS" in
    if (timeWindowStr =? "")%string then 60 * Second
    else match Atoi timeWindowStr with
         | Some val => if 0 <? val then mulDuration val Second else 60 * Second
         | None => 60 * Second
         end in
  let maxDistance :=
    let maxDistStr := getenv "GEOFENCE_MAX_DISTANCE" in
    if (maxDistStr =? "")%string then 10.0%float
    else match ParseFloat maxDistStr with
         | Some val => if (0 <? val)%float then val else 10.0%float
         | None => 10.0%float
         end in
  let distanceUnit :=
    let unitStr := getenv "GEOFENCE_DISTANCE_UNIT" in
    if (unitStr =? "")%string then "km"%string else unitStr in
  let centerLat :=
    let latStr := getenv "GEOFENCE_CENTER_LAT" in
    if (latStr =? "")%string then 40.8448%float
    else match ParseFloat latStr with Some val => val | None => 40.8448%float end in
  let centerLng :=
    let lngStr := getenv "GEOFENCE_CENTER_LNG" in
    if (lngStr =? "")%string then (-73.8648)%float
    else match ParseFloat lngStr with Some val => val | None => (-73.8648)%float end in
  Some {| GoogleMapsAPIKey := apiKey;
          Port := port;
          RequireHTTPS := requireHTTPS;
          RateLimit := {| MaxRequests := maxRequests; TimeWindow := timeWindow |};
          Geofence := ServicesLegacy.mkGeofenceConfig maxDistance distanceUnit centerLat centerLng |}.

End WithParser.

End ConfigLegacy.

(* ===================================================================== *)
(** * Package adapters, current revision                                 *)
(* ===================================================================== *)

Module Adapters.
Import Ports.

(** The parts of the Address Validation API response that are read. *)
Record Verdict := mkVerdict {
  ValidationGranularity : string;
  InputGranularity : string;
  AddressComplete : bool
}.

Record LatLng := mkLatLng { Lat : float; Lng : float }.

(** [resp.Result]; each pointer field is an option, and [Geocode] holds
    the option that is its [Location]. *)
Record ValidationResult := mkValidationResult {
  Verdict_ : option Verdict;
  Address_ : option string;
  Geocode_ : option (option LatLng)
}.

Record Response := mkResponse { Result : option ValidationResult }.

(** [gava.client.V1.ValidateAddress(req).Do()] for a request with the
    given address line, region code and locality. *)
Definition Service : Type :=
  string → string → string → option Response * option string.

Record GoogleAddressValidationAdapter := mkAdapter {
  client : Service;
  config : Services.MapConfig
}.

(** [strings.Join(errors, sep)] *)
Definition Join (l : list string) (sep : string) : string := String.concat sep l.

(** Go's [a >= b] on strings: byte-wise lexicographic order. *)
Definition stringGe (a b : string) : bool := String.leb b a.

(** [func (gava *GoogleAddressValidationAdapter) ValidateAddress(ctx, address)
     (ports.AddressValidationResult, error)] *)
Definition ValidateAddress (gava : GoogleAddressValidationAdapter) (address : string)
  : AddressValidationResult * option error :=
  let result := mkResult false "" 0 0 false "" in
  let '(resp, err) :=
    client gava address (Services.Country (config gava)) (Services.Locality (config gava)) in
  match err with
  | Some e =>
      (mkResult false "" 0 0 false ("Failed to validate address: " ++ e),
       Some (ExternalError ("address validation error: " ++ e)))
  | None =>
      match resp with
      | Some {| Result := Some {| Verdict_ := Some verdict; Address_ := addr; Geocode_ := geo |} |} =>
          let isValid :=
            stringGe (ValidationGranularity verdict) "PREMISE" && AddressComplete verdict in
          let formatted :=
            match addr with
            | Some f => if (f =? "")%string then ""%string else f
            | None => ""%string
            end in
          let '(lat, lng) :=
            match geo with
            | Some (Some loc) => (Lat loc, Lng loc)
            | _ => (0%float, 0%float)
            end in
          let error :=
            if isValid then ""%string
            else
              let errors :=
                (if (InputGranularity verdict =? "OTHER")%string
                 then ["Input address was not recognized."%string] else []) ++
                (if negb (AddressComplete verdict)
                 then ["Address is incomplete."%string] else []) in
              if (0 <? Z.of_nat (length errors))
              then Join errors " "
              else "Address validation failed based on granularity."%string in
          (mkResult isValid formatted lat lng false error, None)
      | _ =>
          (mkResult false "" 0 0 false "No validation result found.",
           Some (ExternalError "no validation result found"))
      end
  end.

End Adapters.

(* ===================================================================== *)
(** * Package adapters, earlier revision: the Google Maps adapter        *)
(* ===================================================================== *)

Module MapsAdapterLegacy.
Import Math Ports.

(** [maps.GeocodingResult], as far as it is read. *)
Record GeocodingResult := mkGeocodingResult {
  FormattedAddress_ : string;
  Location : float * float
}.

(** [GoogleMapsClient.Geocode] for a request with the given address. *)
Definition GoogleMapsClient : Type := string → list GeocodingResult * option string.

Record GoogleMapsAdapter := mkAdapter {
  client : GoogleMapsClient;
  config : ServicesLegacy.Config
}.

(** The adapter's result, its error, and the addresses sent to the
    geocoding client. *)
Record Return := mkReturn {
  result : AddressValidationResult;
  err : option error;
  geocoded : list string
}.

Section WithLibraries.
Context `{Lib}.

(** [func (gma *GoogleMapsAdapter) ValidateAddress(ctx, address)
     (ports.AddressValidationResult, error)] *)
Definition ValidateAddress (gma : GoogleMapsAdapter) (address : string) : Return :=
  if (address =? "")%string then
    {| result := mkResult false "" 0 0 false "Address is required";
       err := Some (ExternalError "address is required");
       geocoded := [] |}
  else
    let '(geocodeResults, err) := client gma address in
    match err with
    | Some e =>
        {| result := mkResult false "" 0 0 false ("Failed to validate address: " ++ e);
           err := Some (ExternalError ("geocoding error: " ++ e));
           geocoded := [address] |}
    | None =>
        match geocodeResults with
        | [] =>
            {| result := mkResult false "" 0 0 false "Address not found";
               err := Some (ExternalError "address not found");
               geocoded := [address] |}
        | geocodeResult :: _ =>
            let lat := fst (Location geocodeResult) in
            let lng := snd (Location geocodeResult) in
            let geofence := ServicesLegacy.Geofence (config gma) in
            let distance :=
              AdaptersLegacy.calculateDistance (ServicesLegacy.DistanceUnit geofence)
                lat lng
                (ServicesLegacy.CenterLat geofence) (ServicesLegacy.CenterLng geofence) in
            {| result :=
                 mkResult true (FormattedAddress_ geocodeResult) lat lng
                   (distance <=? ServicesLegacy.MaxDistance geofence)%float "";
               err := None;
               geocoded := [address] |}
        end
    end.

End WithLibraries.

End MapsAdapterLegacy.

(* ===================================================================== *)
(** * Package handlers, current revision: the HTTP endpoint              *)
(* ===================================================================== *)

Module Http.
Import Time Ports.

Definition newline : string := String "010" EmptyString.

(** [*http.Request], as far as the handler reads it: [TLS] tells whether
    [r.TLS] is non-nil, [XForwardedFor] is what [r.Header.Get] returns for
    that header (empty when absent), and [Body] is the address decoded from
    the JSON body, [None] when decoding fails. *)
Record Request := mkRequest {
  Method : string;
  TLS : bool;
  RemoteAddr : string;
  XForwardedFor : string;
  Body : option string
}.

(** [http.ResponseWriter]: the Content-Type in the header map, the status
    line once written (with the Content-Type sent along), and the body. *)
Record ResponseWriter := mkWriter {
  headerContentType : string;
  status : option Z;
  sentContentType : string;
  body : string
}.

Definition newResponseWriter : ResponseWriter :=
  {| headerContentType := ""; status := None; sentContentType := ""; body := "" |}.

Definition SetContentType (ct : string) (w : ResponseWriter) : ResponseWriter :=
  {| headerContentType := ct; status := status w;
     sentContentType := sentContentType w; body := body w |}.

(** [w.WriteHeader(code)]: only the first call takes effect. *)
Definition WriteHeader (code : Z) (w : ResponseWriter) : ResponseWriter :=
  match status w with
  | Some _ => w
  | None =>
      {| headerContentType := headerContentType w; status := Some code;
         sentContentType := headerContentType w; body := body w |}
  end.

(** [w.Write(data)]: writes the 200 status line first if none was written. *)
Definition Write (data : string) (w : ResponseWriter) : ResponseWriter :=
  let w := WriteHeader 200 w in
  {| headerContentType := headerContentType w; status := status w;
     sentContentType := sentContentType w; body := (body w ++ data)%string |}.

(** [http.Error(w, msg, code)] *)
Definition Error (msg : string) (code : Z) (w : ResponseWriter) : ResponseWriter :=
  Write (msg ++ newline) (WriteHeader code (SetContentType "text/plain; charset=utf-8" w)).

Definition StatusOK : Z := 200.
Definition StatusBadRequest : Z := 400.
Definition StatusMethodNotAllowed : Z := 405.
Definition StatusTooManyRequests : Z := 429.
Definition StatusInternalServerError : Z := 500.
Definition MethodPost : string := "POST".

(** [json.Marshal] of a result, taken as given; [None] is its error. *)
Class Json := { Marshal : AddressValidationResult → option string }.

(** [json.NewEncoder(w).Encode(v)]: the encoding and a newline in one write,
    nothing written on an error. *)
Definition Encode `{Json} (v : AddressValidationResult) (w : ResponseWriter)
  : option ResponseWriter :=
  match Marshal v with
  | Some text => Some (Write (text ++ newline) w)
  | None => None
  end.

Record AddressHandler := mkAddressHandler {
  service : Services.AddressService;
  rateLimiter : Handlers.RateLimiter;
  config : Config.InfraConfig
}.

(** The outcome of serving one request: what was written, the rate limiter
    afterwards, and what the service returned when it was called. *)
Record Exchange := mkExchange {
  response : ResponseWriter;
  limiter : Handlers.RateLimiter;
  validation : option Ports.Return
}.

Section WithLibraries.
Context `{Math.Lib} `{Strings.UnicodeTables} `{Json}.

(** [func (h *AddressHandler) ValidateAddress(w http.ResponseWriter, r *http.Request)];
    [now] is the clock reading of the call of [Allow]. *)
Definition ValidateAddress (h : AddressHandler) (now : Time) (r : Request) : Exchange :=
  let w := SetContentType "application/json" newResponseWriter in
  if negb (Method r =? MethodPost)%string then
    {| response := Error "Method not allowed" StatusMethodNotAllowed w;
       limiter := rateLimiter h; validation := None |}
  else if Config.IsHttpSecure (config h) && negb (TLS r) then
    {| response := Error "HTTPS required" StatusBadRequest w;
       limiter := rateLimiter h; validation := None |}
  else
    let clientIP :=
      if negb (XForwardedFor r =? "")%string then XForwardedFor r else RemoteAddr r in
    let '(allowed, rl) := Handlers.Allow (rateLimiter h) now clientIP in
    if negb allowed then
      {| response := Error "Rate limit exceeded" StatusTooManyRequests w;
         limiter := rl; validation := None |}
    else
      match Body r with
      | None =>
          {| response := Error "Invalid request body" StatusBadRequest w;
             limiter := rl; validation := None |}
      | Some address =>
          let ret := Services.ValidateAddress (service h) address in
          let w :=
            match Ports.err ret with
            | Some _ => WriteHeader StatusBadRequest w
            | None => w
            end in
          let w :=
            match Encode (Ports.result ret) w with
            | Some w => w
            | None => Error "Internal server error" StatusInternalServerError w
            end in
          {| response := w; limiter := rl; validation := Some ret |}
      end.

End WithLibraries.

End Http.

(* ===================================================================== *)
(** * Further vocabulary                                                 *)
(* ===================================================================== *)

Module SpecMore.
Import Time Handlers.

(** Every stored sequence is in chronological order and not later than [T]. *)
Definition chronological (T : Time) (rl : RateLimiter) : Prop :=
  ∀ ip l, requests rl !! ip = Some l →
    StronglySorted Z.le l ∧ Forall (λ t, t ≤ T) l.

(** The clock readings of the calls never go back, starting at [T]. *)
Fixpoint nondecreasing_from (T : Time) (calls : list (Time * string)) : Prop :=
  match calls with
  | [] => True
  | (now, _) :: rest => T ≤ now ∧ nondecreasing_from now rest
  end.

(** The rate-limit key the HTTP handler derives from a request. *)
Definition clientIP (r : Http.Request) : string :=
  if (Http.XForwardedFor r =? "")%string then Http.RemoteAddr r else Http.XForwardedFor r.

(** The request passes the method and HTTPS checks of the handler. *)
Definition reachesLimiter (h : Http.AddressHandler) (r : Http.Request) : Prop :=
  Http.Method r = "POST"%string ∧
  (Config.IsHttpSecure (Http.config h) = true → Http.TLS r = true).

(** The values the Address Validation API documents for a granularity. *)
Definition granularities : list string :=
  ["GRANULARITY_UNSPECIFIED"; "SUB_PREMISE"; "PREMISE"; "PREMISE_PROXIMITY";
   "BLOCK"; "ROUTE"; "OTHER"]%string.

(** Hash signs separated by single spaces: [n + 1] signs, [n] spaces. *)
Fixpoint hashes (n : nat) : string :=
  match n with
  | O => "#"
  | S n => String "#" (String " " (hashes n))
  end.

End SpecMore.

(** Stand-ins for the JSON encoder, the float parser and the environment,
    used to instantiate the theorems at concrete inputs. *)
Module StandIns.
Import Ports.

Definition json : Http.Json :=
  {| Http.Marshal := λ r, Some (if IsValid r then "{valid}" else "{invalid}")%string |}.

Definition floats : Strconv.FloatParser :=
  {| Strconv.ParseFloat := λ s,
       if (s =? "40.8448")%string then Some 40.8448%float
       else if (s =? "-73.8648")%string then Some (-73.8648)%float
       else if (s =? "5")%string then Some 5%float
       else None |}.

(** An environment given as a list of bindings. *)
Fixpoint env (bindings : list (string * string)) (key : string) : string :=
  match bindings with
  | [] => ""
  | (k, v) :: rest => if (k =? key)%string then v else env rest key
  end.

Definition handler (maxRequests : Z) (limiter : gmap string (list Z)) : Http.AddressHandler :=
  {| Http.service := Scenario.service Scenario.bronx 10;
     Http.rateLimiter := Handlers.mkRateLimiter limiter maxRequests 60;
     Http.config := Config.mkInfraConfig Config.ENV_PRODUCTION 8080 true |}.

End StandIns.

(* ===================================================================== *)
(** * The rate limiter                                                   *)
(* ===================================================================== *)

Section RateLimiterFacts.
Import Time Handlers Spec.
Implicit Types (rl : RateLimiter) (ip : string) (now t : Time) (l : list Time).

Lemma int_small x : 0 ≤ x < 2 ^ 63 → int x = x.
Proof. intros H. unfold int. rewrite Z.mod_small; lia. Qed.

Lemma int_signed x : - 2 ^ 63 ≤ x < 2 ^ 63 → int x = x.
Proof. intros H. unfold int. rewrite Z.mod_small; lia. Qed.

Lemma int_le_uint x : 0 ≤ x → int x ≤ x.
Proof.
  intros H. unfold int.
  pose proof (Z.mod_le (x + 2 ^ 63) (2 ^ 64)). lia.
Qed.

Lemma stored_store rl ip l : stored (store rl ip l) ip = l.
Proof. unfold stored, store; simpl. by rewrite lookup_insert_eq. Qed.

Lemma stored_store_ne rl ip ip' l :
  ip ≠ ip' → stored (store rl ip l) ip' = stored rl ip'.
Proof. intros H. unfold stored, store; simpl. by rewrite lookup_insert_ne. Qed.

Lemma store_store rl ip l l' : store (store rl ip l) ip l' = store rl ip l'.
Proof. unfold store; simpl. by rewrite insert_insert_eq. Qed.

Lemma Allow_unfold rl now ip :
  Allow rl now ip =
    if bool_decide (int (maxRequests rl) ≤ Z.of_nat (length (prune rl now ip)))
    then (false, store rl ip (prune rl now ip))
    else (true, store rl ip (prune rl now ip ++ [now])).
Proof.
  unfold Allow. cbn zeta. rewrite stored_store, store_store. reflexivity.
Qed.

Lemma AllowLegacy_Allow rl now ip :
  - 2 ^ 63 ≤ maxRequests rl < 2 ^ 63 → AllowLegacy rl now ip = Allow rl now ip.
Proof.
  intros H. unfold AllowLegacy, Allow. cbn zeta.
  replace (maxRequests (store rl ip (prune rl now ip))) with (maxRequests rl) by reflexivity.
  by rewrite (int_signed _ H).
Qed.

Lemma prune_sublist rl now ip : prune rl now ip `sublist_of` stored rl ip.
Proof. apply sublist_filter. Qed.

Lemma prune_elem rl now ip t :
  t ∈ prune rl now ip ↔ Sub now t ≤ timeWindow rl ∧ t ∈ stored rl ip.
Proof. unfold prune. by rewrite list_elem_of_filter. Qed.

Lemma prune_all_live rl now ip :
  Forall (λ t, Sub now t ≤ timeWindow rl) (stored rl ip) →
  prune rl now ip = stored rl ip.
Proof.
  unfold prune. induction 1 as [|t l Ht _ IH]; [done|].
  rewrite filter_cons_True by done. by rewrite IH.
Qed.

Lemma prune_all_expired rl now ip :
  Forall (λ t, timeWindow rl < Sub now t) (stored rl ip) →
  prune rl now ip = [].
Proof.
  unfold prune. induction 1 as [|t l Ht _ IH]; [done|].
  rewrite filter_cons_False by lia. done.
Qed.

Lemma Allow_other_client rl now ip ip' :
  ip' ≠ ip →
  requests (Allow rl now ip).2 !! ip' = requests rl !! ip'.
Proof.
  intros Hne. rewrite Allow_unfold.
  case_bool_decide; simpl; by rewrite lookup_insert_ne.
Qed.

(** C5.  A call of [Allow] first drops the timestamps older than
    [timeWindow] and stores what is left; it answers false exactly when at
    least [maxRequests] timestamps are left, and then the stored sequence is
    the pruned one (the rejected request adds nothing); on true the stored
    sequence is the pruned one followed by the current time, and nothing
    else.  [maxRequests] is a count that fits Go's [int]. *)
Theorem Allow_prune_check_append rl now ip :
  0 ≤ maxRequests rl < 2 ^ 63 →
  let valid := filter (λ t, Sub now t ≤ timeWindow rl) (stored rl ip) in
  let ok := (Allow rl now ip).1 in
  let rl' := (Allow rl now ip).2 in
  (ok = false ↔ maxRequests rl ≤ Z.of_nat (length valid)) ∧
  (ok = false → requests rl' = <[ip := valid]> (requests rl)) ∧
  (ok = true → requests rl' = <[ip := valid ++ [now]]> (requests rl)) ∧
  maxRequests rl' = maxRequests rl ∧ timeWindow rl' = timeWindow rl.
Proof.
  intros Hmax valid ok rl'. subst ok rl'.
  rewrite Allow_unfold. fold (prune rl now ip) in valid. subst valid.
  rewrite (int_small _ Hmax).
  case_bool_decide as Hc; simpl; repeat split; try done; intros; lia.
Qed.

Lemma Allow_prune_check_append_witness :
  let rl := {| requests := {[ "10.0.0.1"%string := [0; 50; 95] ]};
               maxRequests := 2; timeWindow := 60 |} in
  (Allow rl 100 "10.0.0.1").1 = false ∧
  requests (Allow rl 100 "10.0.0.1").2 = <[ "10.0.0.1"%string := [50; 95] ]> (requests rl).
Proof.
  intros rl.
  destruct (Allow_prune_check_append rl 100 "10.0.0.1") as (Hiff & Hrej & _);
    [simpl; lia|].
  assert ((Allow rl 100 "10.0.0.1").1 = false) as Hno by (apply Hiff; vm_compute; discriminate).
  split; [exact Hno | exact (Hrej Hno)].
Defined.

(** C9.  A call of [Allow] for one client leaves the entry of every other
    client as it was, present or absent. *)
Theorem Allow_frame rl now ip ip' :
  ip' ≠ ip →
  requests (Allow rl now ip).2 !! ip' = requests rl !! ip'.
Proof. apply Allow_other_client. Qed.

Lemma Allow_frame_witness :
  let rl := {| requests := {[ "10.0.0.2"%string := [7] ]};
               maxRequests := 2; timeWindow := 60 |} in
  requests (Allow rl 100 "10.0.0.1").2 !! "10.0.0.2"%string = Some [7].
Proof.
  intros rl.
  exact (Allow_frame rl 100 "10.0.0.1" "10.0.0.2" ltac:(discriminate)).
Defined.

Lemma Allow_config rl now ip :
  maxRequests (Allow rl now ip).2 = maxRequests rl ∧
  timeWindow (Allow rl now ip).2 = timeWindow rl.
Proof. rewrite Allow_unfold. by case_bool_decide. Qed.

Lemma prune_length rl now ip :
  (length (prune rl now ip) ≤ length (stored rl ip))%nat.
Proof. apply length_filter. Qed.

Lemma within_limit_stored rl ip :
  0 ≤ maxRequests rl → within_limit rl →
  Z.of_nat (length (stored rl ip)) ≤ maxRequests rl.
Proof.
  intros H0 H. unfold stored.
  destruct (requests rl !! ip) as [l|] eqn:E; simpl; [by eapply H | lia].
Qed.

Lemma Allow_within_limit rl now ip :
  0 ≤ maxRequests rl → within_limit rl → within_limit (Allow rl now ip).2.
Proof.
  intros H0 Hinv ip' l.
  destruct (Allow_config rl now ip) as [-> _].
  destruct (decide (ip' = ip)) as [->|Hne].
  2:{ rewrite Allow_other_client by done. apply Hinv. }
  pose proof (within_limit_stored rl ip H0 Hinv) as Hs.
  pose proof (prune_length rl now ip) as Hp.
  pose proof (int_le_uint _ H0) as Hi.
  rewrite Allow_unfold. case_bool_decide as Hc; simpl;
    rewrite lookup_insert_eq; intros [= <-].
  - lia.
  - rewrite length_app; simpl. lia.
Qed.

Lemma run_within_limit calls : ∀ rl,
  0 ≤ maxRequests rl → within_limit rl → within_limit (run rl calls).2.
Proof.
  induction calls as [|[now ip] calls IH]; intros rl H0 Hinv; [done|].
  simpl.
  pose proof (Allow_within_limit rl now ip H0 Hinv) as H1.
  destruct (Allow_config rl now ip) as [Hm _].
  destruct (Allow rl now ip) as [b rl1]; simpl in *.
  specialize (IH rl1). rewrite Hm in IH. specialize (IH H0 H1).
  by destruct (run rl1 calls).
Qed.

Lemma run_config calls : ∀ rl,
  maxRequests (run rl calls).2 = maxRequests rl ∧
  timeWindow (run rl calls).2 = timeWindow rl.
Proof.
  induction calls as [|[now ip] calls IH]; intros rl; [done|].
  simpl. destruct (Allow_config rl now ip) as [Hm Hw].
  destruct (Allow rl now ip) as [b rl1]; simpl in *.
  specialize (IH rl1). destruct (run rl1 calls); simpl in *.
  rewrite <- Hm, <- Hw. done.
Qed.

(** C8.  Starting from the empty mapping of [NewRateLimiter], after any
    sequence of calls of [Allow] (any clients, any clock readings) every
    stored timestamp sequence has at most [maxRequests] elements. *)
Theorem stored_length_at_most_maxRequests
    (maxReq : Z) (window : Duration) (calls : list (Time * string))
    (ip : string) (l : list Time) :
  0 ≤ maxReq →
  requests (run (NewRateLimiter maxReq window) calls).2 !! ip = Some l →
  Z.of_nat (length l) ≤ maxReq.
Proof.
  intros H0 Hl.
  assert (within_limit (run (NewRateLimiter maxReq window) calls).2) as Hinv.
  { apply run_within_limit; [done|]. intros ip' l'. simpl. by rewrite lookup_empty. }
  specialize (Hinv _ _ Hl).
  by destruct (run_config calls (NewRateLimiter maxReq window)) as [-> _] in Hinv.
Qed.

Lemma stored_length_at_most_maxRequests_witness :
  requests (run (NewRateLimiter 1 60)
              [(0, "10.0.0.1"%string); (1, "10.0.0.1"%string)]).2 !! "10.0.0.1"%string
  = Some [0] ∧ Z.of_nat (length [0]) ≤ 1.
Proof.
  assert (requests (run (NewRateLimiter 1 60)
            [(0, "10.0.0.1"%string); (1, "10.0.0.1"%string)]).2 !! "10.0.0.1"%string
          = Some [0]) as Hl by (vm_compute; reflexivity).
  split; [exact Hl|].
  apply (stored_length_at_most_maxRequests 1 60
           [(0, "10.0.0.1"%string); (1, "10.0.0.1"%string)] "10.0.0.1" [0]);
    [lia | exact Hl].
Defined.

Lemma run_app calls1 : ∀ rl calls2,
  run rl (calls1 ++ calls2) =
    ((run rl calls1).1 ++ (run (run rl calls1).2 calls2).1,
     (run (run rl calls1).2 calls2).2).
Proof.
  induction calls1 as [|[now ip] calls1 IH]; intros rl calls2; simpl.
  - by destruct (run rl calls2).
  - destruct (Allow rl now ip) as [b rl1]. rewrite IH.
    by destruct (run rl1 calls1).
Qed.

Lemma Allow_admit rl now ip :
  0 ≤ maxRequests rl < 2 ^ 63 →
  Z.of_nat (length (prune rl now ip)) < maxRequests rl →
  Allow rl now ip = (true, store rl ip (prune rl now ip ++ [now])).
Proof.
  intros Hmax Hlt. rewrite Allow_unfold, (int_small _ Hmax).
  rewrite bool_decide_eq_false_2 by lia. done.
Qed.

Lemma Allow_reject rl now ip :
  0 ≤ maxRequests rl < 2 ^ 63 →
  maxRequests rl ≤ Z.of_nat (length (prune rl now ip)) →
  Allow rl now ip = (false, store rl ip (prune rl now ip)).
Proof.
  intros Hmax Hle. rewrite Allow_unfold, (int_small _ Hmax).
  rewrite bool_decide_eq_true_2 by lia. done.
Qed.

(** While the quota lasts and nothing expires, every call of a burst is
    admitted and its timestamp is appended. *)
Lemma burst_admitted ip ts : ∀ rl,
  0 ≤ maxRequests rl < 2 ^ 63 →
  Z.of_nat (length (stored rl ip) + length ts) ≤ maxRequests rl →
  (∀ u t, u ∈ ts → t ∈ stored rl ip ++ ts → Sub u t ≤ timeWindow rl) →
  (burst rl ip ts).1 = replicate (length ts) true ∧
  stored (burst rl ip ts).2 ip = stored rl ip ++ ts ∧
  maxRequests (burst rl ip ts).2 = maxRequests rl ∧
  timeWindow (burst rl ip ts).2 = timeWindow rl.
Proof.
  induction ts as [|u ts IH]; intros rl Hmax Hlen Hlive.
  { unfold burst; simpl. by rewrite app_nil_r. }
  unfold burst in *. simpl.
  assert (prune rl u ip = stored rl ip) as Hp.
  { apply prune_all_live, Forall_forall. intros t Ht.
    apply Hlive; [by left|]. apply elem_of_app. by left. }
  rewrite Allow_admit, Hp; [|done|rewrite Hp; simpl in Hlen; lia].
  set (rl1 := store rl ip (stored rl ip ++ [u])).
  destruct (IH rl1) as (Hr & Hs & Hm & Hw).
  - done.
  - unfold rl1. rewrite stored_store, length_app. simpl in *. lia.
  - intros u' t Hu' Ht. unfold rl1 in Ht. rewrite stored_store in Ht.
    apply Hlive; [by right|]. by rewrite <- app_assoc in Ht.
  - destruct (run rl1 _) as [bs rl2]; simpl in *. subst bs.
    rewrite Hs, Hm, Hw. unfold rl1. rewrite stored_store, <- app_assoc. done.
Qed.

Lemma count_burst_results (n : nat) :
  length (filter (λ b, b = true) (replicate n true ++ [false])) = n ∧
  length (filter (λ b, b = false) (replicate n true ++ [false])) = 1%nat.
Proof.
  induction n as [|n [IH1 IH2]]; [done|].
  change (replicate (S n) true ++ [false]) with (true :: (replicate n true ++ [false])).
  rewrite filter_cons_True by done. rewrite filter_cons_False by done.
  simpl. by rewrite IH1, IH2.
Qed.

(** C1.  With [maxRequests = N] (at least 1), a client that holds no live
    timestamp makes a burst of [N+1] calls, at times [t0 :: ts] that all lie
    within one [timeWindow] of each other: the first [N] calls return true
    and the last returns false, so exactly [N] are admitted.  A later call
    at a time [t'] for which the window has elapsed since each admission
    returns true again. *)
Theorem burst_then_window_elapsed
    rl ip (N : nat) (t0 : Time) (ts : list Time) (t' : Time) :
  maxRequests rl = Z.of_nat N → (1 ≤ N)%nat → Z.of_nat N < 2 ^ 63 →
  length ts = N →
  (∀ u t, u ∈ t0 :: ts → t ∈ t0 :: ts → Sub u t ≤ timeWindow rl) →
  Forall (λ t, timeWindow rl < Sub t0 t) (stored rl ip) →
  Forall (λ t, timeWindow rl < Sub t' t) (take N (t0 :: ts)) →
  let out := burst rl ip (t0 :: ts) in
  out.1 = replicate N true ++ [false] ∧
  length (filter (λ b, b = true) out.1) = N ∧
  length (filter (λ b, b = false) out.1) = 1%nat ∧
  stored out.2 ip = take N (t0 :: ts) ∧
  (Allow out.2 t' ip).1 = true.
Proof.
  intros HN H1 H63 Hlen Hwin Hold Hnew out.
  assert (0 ≤ maxRequests rl < 2 ^ 63) as Hmax by lia.
  (* the first call finds nothing live and is admitted *)
  assert (Allow rl t0 ip = (true, store rl ip [t0])) as Hfirst.
  { rewrite Allow_admit; rewrite ?(prune_all_expired _ _ _ Hold); simpl; [done|done|lia]. }
  set (rl1 := store rl ip [t0]) in *.
  (* the next N-1 calls are admitted, the last one is rejected *)
  destruct N as [|n]; [lia|].
  assert (ts = take n ts ++ drop n ts) as Hsplit by (by rewrite take_drop).
  destruct (drop n ts) as [|tl [|? ?]] eqn:Hdrop;
    try (apply (f_equal length) in Hdrop; rewrite length_drop in Hdrop; simpl in Hdrop; lia).
  set (mid := take n ts) in *.
  assert (length mid = n) as Hmid by (unfold mid; rewrite length_take; lia).
  destruct (burst_admitted ip mid rl1) as (Hr & Hs & Hm & Hw).
  { done. }
  { unfold rl1. rewrite stored_store. simpl. lia. }
  { intros u t Hu Ht. unfold rl1 in Ht |- *. rewrite stored_store in Ht. simpl.
    apply Hwin; rewrite Hsplit.
    - right. apply elem_of_app. by left.
    - simpl in Ht. apply elem_of_cons in Ht as [->|Ht]; [by left|].
      right. apply elem_of_app. by left. }
  set (rl2 := (burst rl1 ip mid).2) in *.
  unfold rl1 in Hs. rewrite stored_store in Hs. simpl in Hs.
  assert (prune rl2 tl ip = t0 :: mid) as Hp.
  { rewrite prune_all_live; [done|]. rewrite Hs, Hw. simpl.
    apply Forall_forall. intros t Ht. apply Hwin; rewrite Hsplit.
    - right. apply elem_of_app. right. by left.
    - apply elem_of_cons in Ht as [->|Ht]; [by left|].
      right. apply elem_of_app. by left. }
  assert (Allow rl2 tl ip = (false, store rl2 ip (t0 :: mid))) as Hlast.
  { rewrite Allow_reject; rewrite ?Hp, ?Hm; unfold rl1; simpl; [done|lia|lia]. }
  assert (out = (replicate (S n) true ++ [false], store rl2 ip (t0 :: mid))) as Hout.
  { unfold out, burst. simpl. rewrite Hfirst.
    rewrite Hsplit at 1. rewrite map_app, run_app.
    fold (burst rl1 ip mid). fold rl2. rewrite Hr, Hmid. simpl. by rewrite Hlast. }
  assert (take (S n) (t0 :: ts) = t0 :: mid) as Htake by done.
  rewrite Hout. simpl.
  split; [done|].
  destruct (count_burst_results (S n)) as [Ht Hf].
  split; [done|]. split; [done|].
  split. { by rewrite stored_store. }
  assert (prune (store rl2 ip (t0 :: mid)) t' ip = []) as Hp'.
  { apply prune_all_expired. rewrite stored_store. simpl.
    rewrite Hw. unfold rl1; simpl. by rewrite <- Htake. }
  rewrite Allow_admit; rewrite ?Hp'; simpl; rewrite ?Hm; unfold rl1; simpl; [done|lia|lia].
Qed.

Lemma burst_then_window_elapsed_witness :
  let out := burst (NewRateLimiter 2 60) "10.0.0.1" [0; 1; 2] in
  out.1 = [true; true; false] ∧ (Allow out.2 100 "10.0.0.1").1 = true.
Proof.
  destruct (burst_then_window_elapsed (NewRateLimiter 2 60) "10.0.0.1" 2 0 [1; 2] 100)
    as (Hres & _ & _ & _ & Hagain).
  - reflexivity.
  - lia.
  - simpl; lia.
  - reflexivity.
  - intros u t Hu Ht.
    repeat (apply elem_of_cons in Hu as [->|Hu]);
      repeat (apply elem_of_cons in Ht as [->|Ht]);
      try (by apply elem_of_nil in Hu); try (by apply elem_of_nil in Ht);
      vm_compute; discriminate.
  - constructor.
  - repeat constructor.
  - split; [exact Hres | exact Hagain].
Defined.

End RateLimiterFacts.

(* ===================================================================== *)
(** * Binary64 arithmetic                                                *)
(* ===================================================================== *)

Section FloatFacts.
Import Math Spec.

Lemma SFcompare_finite_trans_le s (m1 m2 m3 : positive) (e1 e2 e3 : Z) :
  SFleb (S754_finite s m1 e1) (S754_finite s m2 e2) = true →
  SFleb (S754_finite s m2 e2) (S754_finite s m3 e3) = true →
  SFleb (S754_finite s m1 e1) (S754_finite s m3 e3) = true.
Proof.
  unfold SFleb, SFcompare.
  rewrite !Pos.compare_cont_spec. simpl.
  destruct s;
    destruct (Z.compare_spec e1 e2), (Z.compare_spec e2 e3), (Z.compare_spec e1 e3);
    try lia; try done;
    destruct (Pos.compare_spec m1 m2), (Pos.compare_spec m2 m3), (Pos.compare_spec m1 m3);
    simpl; try lia; try done.
Qed.

Lemma SFleb_trans x y z :
  SFleb x y = true → SFleb y z = true → SFleb x z = true.
Proof.
  destruct x as [sx|sx| |sx mx ex], y as [sy|sy| |sy my ey], z as [sz|sz| |sz mz ez];
    try done;
    try (destruct sx, sy, sz; done);
    try (destruct sx, sy; done);
    try (destruct sy, sz; done);
    try (destruct sx, sz; done).
  destruct sx, sy, sz; try done; apply SFcompare_finite_trans_le.
Qed.

Lemma leb_trans (x y z : float) :
  (x <=? y)%float = true → (y <=? z)%float = true → (x <=? z)%float = true.
Proof. rewrite !leb_spec. apply SFleb_trans. Qed.


(** Mantissa sizes *)
Lemma digits2_pos_size p : digits2_pos p = Pos.size p.
Proof. induction p; simpl; by rewrite ?IHp. Qed.

Lemma Zdigits2_log2 p : Zdigits2 (Zpos p) = Z.succ (Z.log2 (Zpos p)).
Proof.
  simpl. rewrite digits2_pos_size. destruct p; simpl; lia.
Qed.

Lemma Zdigits2_gt m : 0 ≤ m → m < 2 ^ Zdigits2 m.
Proof.
  intros Hm. destruct m as [|p|p]; [done| |lia].
  rewrite Zdigits2_log2. apply Z.log2_spec. lia.
Qed.

Lemma Zdigits2_le m k : 0 ≤ k → 0 ≤ m < 2 ^ k → Zdigits2 m ≤ k.
Proof.
  intros Hk [Hm Hlt]. destruct m as [|p|p]; [done| |lia].
  rewrite Zdigits2_log2.
  assert (Z.log2 (Z.pos p) < k); [|lia].
  apply Z.log2_lt_pow2; lia.
Qed.

Lemma shr_1_m mrs : 0 ≤ shr_m mrs → shr_m (shr_1 mrs) = Z.div2 (shr_m mrs).
Proof. destruct mrs as [[|[p|p|]|p] r s]; simpl; done || lia. Qed.

Lemma iter_shr_1_m p : ∀ mrs,
  0 ≤ shr_m mrs → shr_m (SpecFloat.iter_pos shr_1 p mrs) = Z.shiftr (shr_m mrs) (Zpos p).
Proof.
  induction p as [p IH|p IH|]; intros mrs Hm; simpl SpecFloat.iter_pos.
  - assert (0 ≤ shr_m (shr_1 mrs)) as H1.
    { rewrite shr_1_m by done. rewrite Z.div2_spec. by apply Z.shiftr_nonneg. }
    assert (0 ≤ shr_m (SpecFloat.iter_pos shr_1 p (shr_1 mrs))) as H2.
    { rewrite IH by done. by apply Z.shiftr_nonneg. }
    rewrite IH, IH, shr_1_m by done.
    rewrite Z.div2_spec, !Z.shiftr_shiftr by lia. f_equal. lia.
  - assert (0 ≤ shr_m (SpecFloat.iter_pos shr_1 p mrs)) as H2.
    { rewrite IH by done. by apply Z.shiftr_nonneg. }
    rewrite IH, IH by done. rewrite Z.shiftr_shiftr by lia. f_equal. lia.
  - rewrite shr_1_m by done. by rewrite Z.div2_spec.
Qed.

Lemma shr_fexp_spec m e l :
  0 ≤ m →
  let e' := Z.max e (fexp prec emax (Zdigits2 m + e)) in
  snd (shr_fexp prec emax m e l) = e' ∧
  shr_m (fst (shr_fexp prec emax m e l)) = Z.shiftr m (e' - e).
Proof.
  intros Hm e'. unfold shr_fexp, shr.
  assert (shr_m (shr_record_of_loc m l) = m) as Hrec.
  { by destruct l as [|[]]. }
  destruct (fexp prec emax (Zdigits2 m + e) - e) as [|p|p] eqn:Hd; simpl.
  - split; [lia|]. rewrite Hrec. replace (e' - e) with 0 by lia. done.
  - split; [lia|]. rewrite iter_shr_1_m by lia. rewrite Hrec. f_equal. lia.
  - split; [lia|]. rewrite Hrec. replace (e' - e) with 0 by lia. done.
Qed.

Lemma round_nearest_even_bounds m l :
  m ≤ round_nearest_even m l ≤ m + 1.
Proof. destruct l as [|[]]; simpl; try lia. destruct (Z.even m); lia. Qed.


(** Rounding a mantissa below 2^106 at a small enough exponent never
    overflows. *)
Lemma binary_round_aux_finite s m e l :
  0 ≤ m < 2 ^ 106 → e ≤ 917 →
  SFfinite (binary_round_aux prec emax s m e l) = true.
Proof.
  intros [Hm0 Hm] He. unfold binary_round_aux.
  destruct (shr_fexp_spec m e l Hm0) as [He1 Hm1].
  destruct (shr_fexp prec emax m e l) as [mrs1 e1]. simpl in He1, Hm1.
  set (d := Zdigits2 m) in *.
  assert (0 ≤ d ≤ 106) as Hd.
  { split; [unfold d; by destruct m|]. apply Zdigits2_le; lia. }
  assert (e1 ≤ 970) as He1'.
  { subst e1. unfold fexp, emin, prec, emax. lia. }
  assert (0 ≤ shr_m mrs1 < 2 ^ 53) as Hb1.
  { rewrite Hm1. split; [apply Z.shiftr_nonneg; lia|].
    rewrite Z.shiftr_div_pow2 by lia.
    apply Z.div_lt_upper_bound; [apply Z.pow_pos_nonneg; lia|].
    pose proof (Zdigits2_gt m Hm0) as Hlt. fold d in Hlt.
    assert (d - 53 ≤ e1 - e) by (subst e1; unfold fexp, prec; lia).
    rewrite <- Z.pow_add_r by lia.
    eapply Z.lt_le_trans; [exact Hlt|]. apply Z.pow_le_mono_r; lia. }
  set (m2 := round_nearest_even (shr_m mrs1) (loc_of_shr_record mrs1)).
  pose proof (round_nearest_even_bounds (shr_m mrs1) (loc_of_shr_record mrs1)) as Hr.
  fold m2 in Hr.
  assert (0 ≤ m2) as Hm2 by lia.
  destruct (shr_fexp_spec m2 e1 loc_Exact Hm2) as [He2 Hm2'].
  destruct (shr_fexp prec emax m2 e1 loc_Exact) as [mrs2 e2]. simpl in He2, Hm2'.
  assert (Zdigits2 m2 ≤ 54) as Hd2.
  { apply Zdigits2_le; [lia|]. split; [lia|]. 
    assert (2 ^ 53 < 2 ^ 54) by (apply Z.pow_lt_mono_r; lia). lia. }
  assert (e2 ≤ 971) as He2'.
  { subst e2. unfold fexp, emin, prec, emax. lia. }
  assert (0 ≤ shr_m mrs2) as Hb2.
  { rewrite Hm2'. apply Z.shiftr_nonneg. lia. }
  destruct (shr_m mrs2) as [|p|p]; [done| |lia].
  replace (emax - prec) with 971 by done.
  destruct (Z.leb_spec e2 971); [done|lia].
Qed.

Lemma bounded_mantissa m e :
  bounded prec emax m e = true → Zpos m < 2 ^ 53 ∧ e ≤ 971.
Proof.
  unfold bounded, canonical_mantissa. intros [Hc He]%andb_prop.
  apply Z.eqb_eq in Hc. apply Z.leb_le in He.
  split; [|unfold emax, prec in He; lia].
  pose proof (Zdigits2_gt (Zpos m) ltac:(lia)) as Hlt. simpl in Hlt.
  assert (Zpos (digits2_pos m) ≤ 53) as Hd.
  { unfold fexp, emin, prec, emax in Hc. lia. }
  eapply Z.lt_le_trans; [exact Hlt|]. apply Z.pow_le_mono_r; lia.
Qed.

Lemma SFmul_finite x y :
  valid_binary x = true → valid_binary y = true →
  SFfinite x = true → SFfinite y = true →
  (∀ sx mx ex sy my ey,
     x = S754_finite sx mx ex → y = S754_finite sy my ey → ex + ey ≤ 917) →
  SFfinite (SF64mul x y) = true.
Proof.
  intros Vx Vy Fx Fy Hexp.
  destruct x as [sx|sx| |sx mx ex], y as [sy|sy| |sy my ey]; try done.
  unfold SF64mul, SFmul.
  apply bounded_mantissa in Vx as [Hmx _], Vy as [Hmy _].
  apply binary_round_aux_finite; [|by eapply Hexp].
  split; [lia|]. rewrite Pos2Z.inj_mul.
  change (2 ^ 106) with (2 ^ 53 * 2 ^ 53). nia.
Qed.


Lemma IsFinite_mul (x y : float) :
  IsFinite x = true → IsFinite y = true →
  (∀ sx mx ex sy my ey,
     Prim2SF x = S754_finite sx mx ex → Prim2SF y = S754_finite sy my ey →
     ex + ey ≤ 917) →
  IsFinite (x * y) = true.
Proof.
  unfold IsFinite. intros Fx Fy He. rewrite mul_spec.
  apply SFmul_finite; auto using Prim2SF_valid.
Qed.

Lemma Prim2SF_exponent (x : float) s m e :
  Prim2SF x = S754_finite s m e → e ≤ 971.
Proof.
  intros Hx. pose proof (Prim2SF_valid x) as V. rewrite Hx in V.
  by apply bounded_mantissa in V as [_ ?].
Qed.

Lemma IsFinite_to_radians (x : float) :
  IsFinite x = true → IsFinite (x * Pi_over_180) = true.
Proof.
  intros Fx. apply IsFinite_mul; [done|by vm_compute|].
  intros sx mx ex sy my ey Hx Hk.
  apply Prim2SF_exponent in Hx.
  vm_compute in Hk. injection Hk as <- <- <-. lia.
Qed.

Lemma sub_self (x : float) : IsFinite x = true → (x - x)%float = 0%float.
Proof.
  unfold IsFinite. intros Fx. apply Prim2SF_inj. rewrite sub_spec.
  change (Prim2SF 0) with (S754_zero false).
  destruct (Prim2SF x) as [s|s| |s m e]; try done.
  - by destruct s.
  - unfold SF64sub, SFsub. rewrite Z.min_id, Z.sub_diag. done.
Qed.

Lemma mul_zero_r (x z : float) :
  IsFinite x = true → IsZero z → IsZero (x * z).
Proof.
  unfold IsFinite. intros Fx [s Hz]. unfold IsZero. rewrite mul_spec, Hz.
  destruct (Prim2SF x) as [sx|sx| |sx mx ex]; try done; simpl; eauto.
Qed.

Lemma IsZero_finite (z : float) : IsZero z → IsFinite z = true.
Proof. intros [s Hz]. unfold IsFinite. by rewrite Hz. Qed.

Lemma IsZero_zero : IsZero 0%float.
Proof. by exists false. Qed.

Lemma add_zero_l (z : float) : IsZero z → (0 + z)%float = 0%float.
Proof.
  intros [s Hz]. apply Prim2SF_inj. rewrite add_spec, Hz.
  change (Prim2SF 0) with (S754_zero false). by destruct s.
Qed.

Lemma unit_range_exponent (c : float) s m e :
  (-1 <=? c)%float = true → (c <=? 1)%float = true →
  Prim2SF c = S754_finite s m e → e ≤ -52.
Proof.
  rewrite !leb_spec. intros Hlo Hhi Hc. rewrite Hc in Hlo, Hhi.
  change (Prim2SF 1) with (S754_finite false 4503599627370496 (-52)) in Hhi.
  change (Prim2SF (-1)) with (S754_finite true 4503599627370496 (-52)) in Hlo.
  unfold SFleb, SFcompare in Hlo, Hhi.
  destruct s.
  - destruct (Z.compare_spec (-52) e); try lia; done.
  - destruct (Z.compare_spec e (-52)); try lia; done.
Qed.

Lemma unit_range_finite (c : float) :
  (-1 <=? c)%float = true → (c <=? 1)%float = true → IsFinite c = true.
Proof.
  rewrite !leb_spec. unfold IsFinite. intros Hlo Hhi.
  destruct (Prim2SF c) as [s|s| |s m e]; try done.
  destruct s; [by vm_compute in Hlo | by vm_compute in Hhi].
Qed.

Lemma square_unit_range_finite (c : float) :
  (-1 <=? c)%float = true → (c <=? 1)%float = true → IsFinite (c * c) = true.
Proof.
  intros Hlo Hhi. pose proof (unit_range_finite c Hlo Hhi) as Fc.
  apply IsFinite_mul; [done|done|].
  intros sx mx ex sy my ey Hx Hy.
  apply (unit_range_exponent c _ _ _ Hlo Hhi) in Hx, Hy. lia.
Qed.

End FloatFacts.

(* ===================================================================== *)
(** * The geofence                                                       *)
(* ===================================================================== *)

Section GeofenceFacts.
Import Math Ports Strings Spec.
Context `{Lib} `{UnicodeTables}.

Lemma legacy_calculateDistance lat1 lng1 lat2 lng2 unit :
  ServicesLegacy.calculateDistance lat1 lng1 lat2 lng2 unit
  = Services.calculateDistance lat1 lng1 lat2 lng2 unit.
Proof. reflexivity. Qed.

Lemma isASCII_ToLower (s : string) :
  isASCII s = true → ToLower s = mapBytes lowerByte s.
Proof. unfold ToLower. by intros ->. Qed.

Lemma lowerByte_m c : lowerByte c = "m"%char ↔ c = "m"%char ∨ c = "M"%char.
Proof.
  split.
  - destruct c as [[] [] [] [] [] [] [] []]; vm_compute; intros; try discriminate; auto.
  - intros [-> | ->]; reflexivity.
Qed.

Lemma lowerByte_i c : lowerByte c = "i"%char ↔ c = "i"%char ∨ c = "I"%char.
Proof.
  split.
  - destruct c as [[] [] [] [] [] [] [] []]; vm_compute; intros; try discriminate; auto.
  - intros [-> | ->]; reflexivity.
Qed.

Lemma ToLower_mi_ascii (unit : string) :
  isASCII unit = true →
  (ToLower unit = "mi" ↔ unit = "mi" ∨ unit = "Mi" ∨ unit = "mI" ∨ unit = "MI")%string.
Proof.
  intros Ha. rewrite (isASCII_ToLower _ Ha). split.
  - destruct unit as [|c1 [|c2 [|c3 r]]]; simpl; try discriminate.
    intros [= H1%lowerByte_m H2%lowerByte_i].
    destruct H1 as [-> | ->], H2 as [-> | ->]; auto.
  - intros [-> | [-> | [-> | ->]]]; reflexivity.
Qed.

(** The service's function: for all points and every unit string,
    [calculateDistance] is the Haversine distance with radius 3958.8 when
    the lower-cased unit is [mi], and with radius 6371.0 for every other
    unit; for ASCII units the former means one of mi, Mi, mI, MI, and the
    empty unit gives kilometers. *)
Theorem calculateDistance_unit_selection (lat1 lng1 lat2 lng2 : float) (unit : string) :
  (ToLower unit = "mi"%string →
     Services.calculateDistance lat1 lng1 lat2 lng2 unit
     = Haversine 3958.8%float lat1 lng1 lat2 lng2) ∧
  (ToLower unit ≠ "mi"%string →
     Services.calculateDistance lat1 lng1 lat2 lng2 unit
     = Haversine 6371.0%float lat1 lng1 lat2 lng2) ∧
  (isASCII unit = true →
     (ToLower unit = "mi" ↔ unit = "mi" ∨ unit = "Mi" ∨ unit = "mI" ∨ unit = "MI")%string) ∧
  Services.calculateDistance lat1 lng1 lat2 lng2 "" = Haversine 6371.0%float lat1 lng1 lat2 lng2.
Proof.
  unfold Services.calculateDistance, Haversine, DISTANCE_MILES.
  repeat split.
  - intros ->. reflexivity.
  - intros Hne. destruct (String.eqb_spec (ToLower unit) "mi"); [done|reflexivity].
  - by apply ToLower_mi_ascii.
  - by apply ToLower_mi_ascii.
Qed.

(** The private copy of the formula in the earlier Google Maps adapter
    chooses differently: kilometers for the unit [km] exactly, miles for
    everything else, the empty unit included. *)
Remark adapter_calculateDistance_default_miles (unit : string) (lat1 lng1 lat2 lng2 : float) :
  unit ≠ "km"%string →
  AdaptersLegacy.calculateDistance unit lat1 lng1 lat2 lng2
  = AdaptersLegacy.calculateDistance "mi" lat1 lng1 lat2 lng2.
Proof.
  intros Hne. unfold AdaptersLegacy.calculateDistance.
  by destruct (String.eqb_spec unit "km").
Qed.


Section SelfDistance.
Context `{!SpecialCases}.

Lemma haversine_a_self (latRad lngRad : float) :
  IsFinite latRad = true → IsFinite lngRad = true →
  (Sin ((latRad - latRad) / 2) * Sin ((latRad - latRad) / 2)
   + Cos latRad * Cos latRad * Sin ((lngRad - lngRad) / 2) * Sin ((lngRad - lngRad) / 2))%float
  = 0%float.
Proof.
  intros Flat Flng. rewrite !sub_self by done.
  change (0 / 2)%float with 0%float. rewrite Sin_zero.
  change (0 * 0)%float with 0%float.
  apply add_zero_l.
  destruct (Cos_range latRad Flat) as [Hlo Hhi].
  pose proof (square_unit_range_finite _ Hlo Hhi) as Fcc.
  apply mul_zero_r; [|apply IsZero_zero].
  apply IsZero_finite. apply mul_zero_r; [done|apply IsZero_zero].
Qed.

Lemma calculateDistance_self (lat lng : float) (unit : string) :
  IsFinite lat = true → IsFinite lng = true →
  Services.calculateDistance lat lng lat lng unit = 0%float.
Proof.
  intros Flat Flng. unfold Services.calculateDistance. cbv zeta.
  rewrite haversine_a_self by (by apply IsFinite_to_radians).
  change (Sqrt 0) with 0%float. change (Sqrt (1 - 0)) with 1%float.
  rewrite Atan2_zero_one.
  by destruct (ToLower unit =? DISTANCE_MILES)%string.
Qed.

(** C6.  For every point with finite coordinates and every unit, the
    distance from the point to itself is 0; hence, for every maximum
    distance that is at least 0, a match located at the geofence centre is
    reported in range (the comparison is [distance <= maxDistance]), by the
    orchestrator of the current revision and by [isWithinGeofence] of the
    earlier one. *)
Theorem distance_to_self_is_zero_and_in_range (lat lng : float) (unit : string) :
  IsFinite lat = true → IsFinite lng = true →
  Services.calculateDistance lat lng lat lng unit = 0%float ∧
  ∀ maxDistance : float, (0 <=? maxDistance)%float = true →
    (* current revision: the orchestrator's verdict for a match at the centre *)
    (∀ (s : Services.AddressService) (address : string) (r : AddressValidationResult),
       Services.CenterLat (Services.config s) = lat →
       Services.CenterLng (Services.config s) = lng →
       Services.DistanceUnit (Services.config s) = unit →
       Services.MaxDistance (Services.config s) = maxDistance →
       Services.ValidateAddress s address
       = {| result := r; err := None; delegated := [Services.sanitizeAddress address] |} →
       IsValid r = true → Latitude r = lat → Longitude r = lng →
       InRange r = true) ∧
    (* earlier revision *)
    (∀ s : ServicesLegacy.AddressService,
       ServicesLegacy.CenterLat (ServicesLegacy.Geofence (ServicesLegacy.config s)) = lat →
       ServicesLegacy.CenterLng (ServicesLegacy.Geofence (ServicesLegacy.config s)) = lng →
       ServicesLegacy.DistanceUnit (ServicesLegacy.Geofence (ServicesLegacy.config s)) = unit →
       ServicesLegacy.MaxDistance (ServicesLegacy.Geofence (ServicesLegacy.config s)) = maxDistance →
       ServicesLegacy.isWithinGeofence s lat lng = true).
Proof.
  intros Flat Flng.
  pose proof (calculateDistance_self lat lng unit Flat Flng) as Hd.
  split; [done|]. intros maxDistance Hmax. split.
  - intros s address r Hclat Hclng Hunit Hm Hrun Hvalid Hlat Hlng.
    unfold Services.ValidateAddress in Hrun.
    destruct (_ || _) in Hrun; [done|].
    destruct (Services.validator s _) as [r0 [e|]] eqn:Hv; [done|].
    injection Hrun as <-.
    destruct (IsValid r0) eqn:Hv0.
    + simpl in Hlat, Hlng |- *. rewrite Hclat, Hclng, Hunit, Hm, Hlat, Hlng, Hd. done.
    + simpl in Hvalid. congruence.
  - intros s Hclat Hclng Hunit Hm. unfold ServicesLegacy.isWithinGeofence.
    rewrite Hclat, Hclng, Hunit, Hm, legacy_calculateDistance, Hd. done.
Qed.

End SelfDistance.

(** C7.  The in-range verdict is monotone in the maximum distance: with
    [d1 <= d2], whatever is in range under [d1] is in range under [d2], all
    else (validator, centre, unit, request) being equal. *)
Theorem in_range_monotone_in_maxDistance (d1 d2 : float) :
  (d1 <=? d2)%float = true →
  (* current revision: same service but for the radius, same request *)
  (∀ (v : AddressValidator) (key unit country locality : string) (clat clng : float)
     (address : string),
     let s d := {| Services.validator := v;
                   Services.config := Services.mkMapConfig key d unit clat clng country locality |} in
     InRange (result (Services.ValidateAddress (s d1) address)) = true →
     InRange (result (Services.ValidateAddress (s d2) address)) = true) ∧
  (* earlier revision *)
  (∀ (v : AddressValidator) (unit : string) (clat clng lat lng : float),
     let s d := {| ServicesLegacy.validator := v;
                   ServicesLegacy.config :=
                     {| ServicesLegacy.Geofence :=
                          ServicesLegacy.mkGeofenceConfig d unit clat clng |} |} in
     ServicesLegacy.isWithinGeofence (s d1) lat lng = true →
     ServicesLegacy.isWithinGeofence (s d2) lat lng = true).
Proof.
  intros Hle. split.
  - intros v key unit country locality clat clng address s.
    unfold Services.ValidateAddress. simpl.
    destruct (_ || _); [done|].
    destruct (v _) as [r [e|]]; [done|]. simpl.
    destruct (IsValid r); [|done]. simpl.
    intros Hin. by eapply leb_trans.
  - intros v unit clat clng lat lng s. unfold ServicesLegacy.isWithinGeofence. simpl.
    intros Hin. by eapply leb_trans.
Qed.

End GeofenceFacts.

Lemma Approx_special_cases : @Math.SpecialCases Approx.math.
Proof.
  split.
  - reflexivity.
  - intros x _. simpl. unfold Approx.cosClamped.
    destruct (-1 <=? Approx.cosSeries x)%float eqn:Hlo; [|done].
    destruct (Approx.cosSeries x <=? 1)%float eqn:Hhi; [by split | done].
  - reflexivity.
Qed.

Lemma distance_to_self_is_zero_and_in_range_witness :
  @Services.calculateDistance Approx.math Approx.unicode
     40.8448 (-73.8648) 40.8448 (-73.8648) "km" = 0%float ∧
  Ports.InRange (Ports.result
     (@Services.ValidateAddress Approx.math Approx.unicode
        (Scenario.service Scenario.bronx 10) "123 Main St, Bronx, NY")) = true.
Proof.
  destruct (@distance_to_self_is_zero_and_in_range Approx.math Approx.unicode
              Approx_special_cases 40.8448%float (-73.8648)%float "km" eq_refl eq_refl)
    as [Hzero Hin].
  split; [exact Hzero|].
  destruct (Hin 10%float eq_refl) as [Hcur _].
  eapply (Hcur (Scenario.service Scenario.bronx 10) "123 Main St, Bronx, NY");
    reflexivity.
Defined.

Lemma in_range_monotone_in_maxDistance_witness :
  Ports.InRange (Ports.result
     (@Services.ValidateAddress Approx.math Approx.unicode
        (Scenario.service Scenario.manhattan 30) "1 Centre St, New York")) = true.
Proof.
  apply (proj1 (@in_range_monotone_in_maxDistance Approx.math Approx.unicode
                  20%float 30%float eq_refl)
           Scenario.manhattan "key" "km" "us" "Bronx" 40.8448%float (-73.8648)%float
           "1 Centre St, New York").
  vm_compute. reflexivity.
Defined.

(** The second scenario of the specification, run on the stand-ins: the
    match in Manhattan is about 18.9 km from the centre and out of range
    of a 10 km geofence. *)
Example manhattan_out_of_range :
  Ports.InRange (Ports.result
     (@Services.ValidateAddress Approx.math Approx.unicode
        (Scenario.service Scenario.manhattan 10) "1 Centre St, New York")) = false.
Proof. vm_compute. reflexivity. Qed.

(** C2, on the code.  The service's [calculateDistance], the same in both
    revisions, selects the radius as the claim says: 3958.8 when the
    lower-cased unit is [mi], 6371.0 for every other unit.  The private
    copy in the earlier Google Maps adapter does not: it takes 6371.0 for
    the unit [km] exactly and 3958.8 for every other unit, so that the
    empty unit and [KM] are measured in miles.  With the unit [KM], which
    the earlier [LoadConfig] passes on as it is, and the default radius of
    10, a match 12 km from the centre is out of range for the service and
    in range for the adapter (evaluated on the stand-in routines). *)
Theorem adapter_calculateDistance_defaults_to_miles
    `{Math.Lib} `{Strings.UnicodeTables} (lat1 lng1 lat2 lng2 : float) :
  (* the service, both revisions *)
  (∀ unit : string,
     ServicesLegacy.calculateDistance lat1 lng1 lat2 lng2 unit
     = Services.calculateDistance lat1 lng1 lat2 lng2 unit ∧
     (Strings.ToLower unit = "mi"%string →
        Services.calculateDistance lat1 lng1 lat2 lng2 unit
        = Spec.Haversine 3958.8%float lat1 lng1 lat2 lng2) ∧
     (Strings.ToLower unit ≠ "mi"%string →
        Services.calculateDistance lat1 lng1 lat2 lng2 unit
        = Spec.Haversine 6371.0%float lat1 lng1 lat2 lng2)) ∧
  (* the adapter: one central angle, kilometers for km alone *)
  (∃ c : float,
     AdaptersLegacy.calculateDistance "km" lat1 lng1 lat2 lng2 = (6371.0 * c)%float ∧
     ∀ unit : string, unit ≠ "km"%string →
       AdaptersLegacy.calculateDistance unit lat1 lng1 lat2 lng2 = (3958.8 * c)%float) ∧
  (* the unit KM from the environment, on the stand-ins *)
  (let getenv := StandIns.env
     [("GOOGLE_MAPS_API_KEY", "key"); ("GEOFENCE_DISTANCE_UNIT", "KM")]%string in
   ∃ cfg : ConfigLegacy.Config,
     @ConfigLegacy.LoadConfig StandIns.floats getenv = Some cfg ∧
     ServicesLegacy.DistanceUnit (ConfigLegacy.Geofence cfg) = "KM"%string ∧
     ServicesLegacy.MaxDistance (ConfigLegacy.Geofence cfg) = 10%float ∧
     let config := {| ServicesLegacy.Geofence := ConfigLegacy.Geofence cfg |} in
     let geocoder : MapsAdapterLegacy.GoogleMapsClient := λ _,
       ([MapsAdapterLegacy.mkGeocodingResult "Hunts Point, Bronx, NY"
           (40.7368%float, (-73.8648)%float)], None) in
     @ServicesLegacy.isWithinGeofence Approx.math Approx.unicode
        {| ServicesLegacy.validator := Scenario.bronx; ServicesLegacy.config := config |}
        40.7368 (-73.8648) = false ∧
     Ports.InRange (MapsAdapterLegacy.result
        (@MapsAdapterLegacy.ValidateAddress Approx.math
           {| MapsAdapterLegacy.client := geocoder; MapsAdapterLegacy.config := config |}
           "Hunts Point")) = true).
Proof.
  split; [|split].
  - intros unit. split; [reflexivity|].
    destruct (calculateDistance_unit_selection lat1 lng1 lat2 lng2 unit) as (Hmi & Hkm & _).
    by split.
  - eexists. split; [reflexivity|].
    intros unit Hne. unfold AdaptersLegacy.calculateDistance.
    by destruct (String.eqb_spec unit "km").
  - eexists. split; [vm_compute; reflexivity|].
    repeat split; vm_compute; reflexivity.
Qed.

(* ===================================================================== *)
(** * The sanitizer                                                      *)
(* ===================================================================== *)

Section SanitizerFacts.
Import Utf8 Strings Regexp Ports Spec.

Lemma substring_bytes s : ∀ n m c,
  c ∈ bytes (String.substring n m s) → c ∈ bytes s.
Proof.
  induction s as [|a s IH]; intros [|n] [|m] c; simpl; try done;
    rewrite ?elem_of_cons.
  - by intros ?%elem_of_nil.
  - intros [->|Hc]; [by left|right; by eapply IH].
  - intros Hc. right. by eapply IH.
  - intros Hc. right. by eapply IH.
Qed.

Lemma substring_length s : ∀ n m,
  (String.length (String.substring n m s) ≤ m)%nat.
Proof.
  induction s as [|a s IH]; intros [|n] [|m]; simpl; try lia.
  - specialize (IH 0%nat m). lia.
  - apply IH.
  - apply IH.
Qed.

Lemma slice_bytes s i j c : c ∈ bytes (slice s i j) → c ∈ bytes s.
Proof. apply substring_bytes. Qed.

Lemma TrimLeftFunc_bytes s f c : c ∈ bytes (TrimLeftFunc s f) → c ∈ bytes s.
Proof.
  unfold TrimLeftFunc. destruct (_ =? _).
  - simpl. by intros ?%elem_of_nil.
  - apply slice_bytes.
Qed.

Lemma TrimRightFunc_bytes s f c : c ∈ bytes (TrimRightFunc s f) → c ∈ bytes s.
Proof. unfold TrimRightFunc. apply slice_bytes. Qed.

Lemma TrimFunc_bytes s f c : c ∈ bytes (TrimFunc s f) → c ∈ bytes s.
Proof. unfold TrimFunc. intros Hc%TrimRightFunc_bytes. by eapply TrimLeftFunc_bytes. Qed.

Lemma TrimSpace_bytes s c : c ∈ bytes (TrimSpace s) → c ∈ bytes s.
Proof.
  unfold TrimSpace.
  assert (∀ fuel start r, trimStart fuel s start = inr r → c ∈ bytes r → c ∈ bytes s) as Hstart.
  { induction fuel as [|fuel IH]; intros start r; simpl; [done|].
    destruct (_ <=? _); [done|]. destruct (_ <=? _).
    - intros [= <-] Hc%TrimFunc_bytes. by eapply slice_bytes.
    - destruct (negb _); [done|]. apply IH. }
  assert (∀ fuel start stop r, trimStop fuel s start stop = inr r → c ∈ bytes r → c ∈ bytes s) as Hstop.
  { induction fuel as [|fuel IH]; intros start stop r; simpl; [done|].
    destruct (_ <=? _); [done|]. destruct (_ <=? _).
    - intros [= <-] Hc%TrimRightFunc_bytes. by eapply slice_bytes.
    - destruct (negb _); [done|]. apply IH. }
  destruct (trimStart _ s 0) as [start|r] eqn:E1; [|by eapply Hstart].
  destruct (trimStop _ s start _) as [stop|r] eqn:E2; [|by eapply Hstop].
  apply slice_bytes.
Qed.

Lemma DeleteAllClass_bytes negated class s c :
  c ∈ bytes (DeleteAllClass negated class s) ↔
  c ∈ bytes s ∧ classMatches negated class c = false.
Proof.
  induction s as [|a s IH]; simpl.
  - split; [by intros ?%elem_of_nil | by intros [?%elem_of_nil _]].
  - destruct (classMatches negated class a) eqn:Ha; simpl;
      rewrite ?elem_of_cons, IH; split.
    + intros [Hc Hm]. auto.
    + intros [[->|Hc] Hm]; [congruence|auto].
    + intros [->|[Hc Hm]]; auto.
    + intros [[->|Hc] Hm]; auto.
Qed.

Lemma replaceRuns_bytes class s : ∀ inRun c,
  c ∈ bytes (replaceRuns class " " inRun s) →
  c = " "%char ∨ (c ∈ bytes s ∧ class c = false).
Proof.
  induction s as [|a s IH]; intros inRun c; simpl.
  - by intros ?%elem_of_nil.
  - destruct (class a) eqn:Ha.
    + destruct inRun; simpl.
      * intros Hc. destruct (IH _ _ Hc) as [->|[? ?]]; [by left|right].
        split; [by right|done].
      * intros Hc. apply elem_of_cons in Hc as [->|Hc]; [by left|].
        destruct (IH _ _ Hc) as [->|[? ?]]; [by left|right].
        split; [by right|done].
    + simpl. intros Hc. apply elem_of_cons in Hc as [->|Hc].
      * right. split; [by left|done].
      * destruct (IH _ _ Hc) as [->|[? ?]]; [by left|right].
        split; [by right|done].
Qed.

(** C3, as amended.  For every input: the output of the current sanitizer
    contains only characters of the allow-list (ASCII letters, digits,
    underscore, whitespace, comma, period, hyphen), and the only whitespace
    left is the space; the output of the earlier sanitizer has at most 200
    bytes and contains none of the ten characters it deletes.  Nothing is
    said of the length of the former or of other characters in the
    latter. *)
Theorem sanitizeAddress_guarantees (input : string) :
  (* current revision: allow-list, no cap *)
  Forall (λ c, allowListed c = true ∧
               (perl_s c = true → c = " "%char))
         (bytes (Services.sanitizeAddress input)) ∧
  (* earlier revision: cap, deny-list *)
  (String.length (ServicesLegacy.sanitizeAddress input) ≤ 200)%nat ∧
  Forall (λ c, ServicesLegacy.specialChars c = false)
         (bytes (ServicesLegacy.sanitizeAddress input)).
Proof.
  split; [|split].
  - apply Forall_forall. intros c Hc. unfold Services.sanitizeAddress in Hc.
    apply DeleteAllClass_bytes in Hc as [Hc Hm].
    unfold classMatches in Hm. destruct (_ <? _); [|done].
    split.
    + unfold allowListed. unfold Services.allowed in Hm. by destruct (_ || _).
    + unfold ReplaceAllClassPlus in Hc.
      apply replaceRuns_bytes in Hc as [->|[_ Hs]]; [done|congruence].
  - unfold ServicesLegacy.sanitizeAddress.
    destruct (Z.ltb_spec 200 (len (TrimSpace (DeleteAllClass false ServicesLegacy.specialChars input)))) as [Hl|Hl].
    + apply substring_length.
    + unfold len in Hl. lia.
  - apply Forall_forall. intros c Hc. unfold ServicesLegacy.sanitizeAddress in Hc.
    assert (c ∈ bytes (DeleteAllClass false ServicesLegacy.specialChars input)) as Hd.
    { destruct (_ <? _) in Hc; [apply slice_bytes in Hc|]; by apply TrimSpace_bytes. }
    apply DeleteAllClass_bytes in Hd as [_ Hm].
    unfold classMatches in Hm. destruct (byte c <? RuneSelf) eqn:Hb; [done|].
    (* a byte of 0x80 and above is none of the ten characters *)
    unfold ServicesLegacy.specialChars. apply Z.ltb_ge in Hb. unfold RuneSelf in Hb.
    repeat (apply orb_false_intro); apply Z.eqb_neq; lia.
Qed.

(** C3, counterexample.  The current sanitizer returns 201 letters
    unchanged, and the earlier one lets a hash sign through: neither meets
    both halves of the claim. *)
Lemma sanitizer_claim_fails :
  String.length (Services.sanitizeAddress (repeatString 201 "a")) = 201%nat ∧
  ServicesLegacy.sanitizeAddress "#" = "#"%string ∧
  allowListed "#" = false ∧
  ¬ sanitizer_claim Services.sanitizeAddress ∧
  ¬ sanitizer_claim ServicesLegacy.sanitizeAddress.
Proof.
  assert (String.length (Services.sanitizeAddress (repeatString 201 "a")) = 201%nat) as H1
    by (vm_compute; reflexivity).
  assert (ServicesLegacy.sanitizeAddress "#" = "#"%string) as H2 by (vm_compute; reflexivity).
  repeat split; try done.
  - intros Hclaim. destruct (Hclaim (repeatString 201 "a")) as [Hlen _]. lia.
  - intros Hclaim. destruct (Hclaim "#"%string) as [_ Hall].
    rewrite H2 in Hall. by inversion Hall.
Qed.

End SanitizerFacts.

(* ===================================================================== *)
(** * The orchestrator and the threat check                              *)
(* ===================================================================== *)

Section OrchestratorFacts.
Import Math Ports Strings Regexp.
Context `{Lib} `{UnicodeTables}.

Lemma suspiciousPattern_does_not_compile :
  Compile ServicesLegacy.suspiciousPattern = inl (ErrInvalidEscape "\2").
Proof. reflexivity. Qed.

Lemma isSuspicious_panics (address : string) :
  ∃ msg, ServicesLegacy.isSuspicious address = Panic msg.
Proof. eexists. reflexivity. Qed.

Lemma legacy_ValidateAddress_panics (s : ServicesLegacy.AddressService) (address : string) :
  ServicesLegacy.sanitizeAddress address ≠ ""%string →
  ∃ msg, ServicesLegacy.ValidateAddress s address = Panic msg.
Proof.
  intros Hne. unfold ServicesLegacy.ValidateAddress.
  destruct (String.eqb_spec (ServicesLegacy.sanitizeAddress address) ""); [done|].
  eexists. reflexivity.
Qed.

Lemma ValidateAddress_delegates (s : Services.AddressService) (address : string) :
  Services.sanitizeAddress address ≠ ""%string →
  Services.sanitizeAddress address ≠ " "%string →
  delegated (Services.ValidateAddress s address) = [Services.sanitizeAddress address] ∧
  err (Services.ValidateAddress s address)
  = snd (Services.validator s (Services.sanitizeAddress address)).
Proof.
  intros H1 H2. unfold Services.ValidateAddress.
  destruct (String.eqb_spec (Services.sanitizeAddress address) ""); [done|].
  destruct (String.eqb_spec (Services.sanitizeAddress address) " "); [done|].
  simpl. destruct (Services.validator s _) as [r [e|]]; done.
Qed.

(** C4, on the code.  The address [select a from b] is its own sanitized
    form and has the shape the threat detector is to flag.  The current
    orchestrator has no threat check: it hands the address to the external
    validator and returns what the validator returns.  The earlier
    orchestrator calls [isSuspicious], whose pattern does not compile, and
    panics. *)
Theorem suspicious_address_reaches_the_validator :
  Services.sanitizeAddress "select a from b" = "select a from b"%string ∧
  (∀ s : Services.AddressService,
     delegated (Services.ValidateAddress s "select a from b") = ["select a from b"%string] ∧
     err (Services.ValidateAddress s "select a from b")
     = snd (Services.validator s "select a from b")) ∧
  (∀ s : ServicesLegacy.AddressService,
     ∃ msg, ServicesLegacy.ValidateAddress s "select a from b" = Panic msg).
Proof.
  assert (Services.sanitizeAddress "select a from b" = "select a from b"%string) as Hs
    by (vm_compute; reflexivity).
  split; [done|]. split.
  - intros s. pose proof (ValidateAddress_delegates s "select a from b") as Hd.
    rewrite Hs in Hd. by apply Hd.
  - intros s. apply legacy_ValidateAddress_panics. by vm_compute.
Qed.

End OrchestratorFacts.

(* ===================================================================== *)
(** * The rate limiter: edge behaviour and invariants                    *)
(* ===================================================================== *)

Section RateLimiterMore.
Import Time Handlers Spec SpecMore.
Implicit Types (rl : RateLimiter) (ip : string) (now t : Time) (l : list Time).

Lemma Sub_self t : Sub t t = 0.
Proof. unfold Sub, minDuration, maxDuration. lia. Qed.

Lemma Allow_dom rl now ip :
  dom (requests (Allow rl now ip).2) = {[ ip ]} ∪ dom (requests rl).
Proof.
  rewrite Allow_unfold. case_bool_decide; simpl; by rewrite dom_insert_L.
Qed.

(** X1.  [Allow] never deletes a key of the map: after a call the keys are
    those held before together with the caller, whatever the verdict, and
    after any sequence of calls they are those held at the start together
    with every caller.  A client that stops calling keeps its key for the
    lifetime of the limiter. *)
Theorem Allow_never_evicts rl :
  (∀ now ip, dom (requests (Allow rl now ip).2) = {[ ip ]} ∪ dom (requests rl)) ∧
  (∀ calls : list (Time * string),
     dom (requests (run rl calls).2) = list_to_set (calls.*2) ∪ dom (requests rl)).
Proof.
  split; [apply Allow_dom|].
  intros calls. revert rl.
  induction calls as [|[now ip] calls IH]; intros rl; simpl.
  - by rewrite (left_id_L ∅ (∪)).
  - pose proof (Allow_dom rl now ip) as Hd.
    destruct (Allow rl now ip) as [b rl1]. simpl in Hd.
    specialize (IH rl1). destruct (run rl1 calls) as [bs rl2]. simpl in *.
    rewrite IH, Hd.
    by rewrite (assoc_L (∪)), (comm_L (∪) (list_to_set _) {[ ip ]}).
Qed.

(** X2.  With a window that is not negative, every timestamp the caller
    holds after a call of [Allow] lies within the window of the clock
    reading of that call, the one just appended included. *)
Theorem Allow_keeps_only_live_timestamps rl now ip :
  0 ≤ timeWindow rl →
  Forall (λ t, Sub now t ≤ timeWindow rl) (stored (Allow rl now ip).2 ip).
Proof.
  intros Hw. rewrite Allow_unfold.
  assert (Forall (λ t, Sub now t ≤ timeWindow rl) (prune rl now ip)) as Hp.
  { apply Forall_forall. intros t Ht. by apply prune_elem in Ht as [? _]. }
  case_bool_decide; cbn [snd]; rewrite stored_store; [done|].
  apply Forall_app. split; [done|]. constructor; [|constructor].
  by rewrite Sub_self.
Qed.

Lemma Allow_keeps_only_live_timestamps_witness :
  let rl := {| requests := {[ "10.0.0.1"%string := [0; 50; 95] ]};
               maxRequests := 5; timeWindow := 60 |} in
  Forall (λ t, Sub 100 t ≤ 60) (stored (Allow rl 100 "10.0.0.1").2 "10.0.0.1").
Proof.
  intros rl.
  exact (Allow_keeps_only_live_timestamps rl 100 "10.0.0.1" ltac:(simpl; lia)).
Defined.

Lemma int_wraps_negative x : 2 ^ 63 ≤ x < 2 ^ 64 → int x = x - 2 ^ 64.
Proof.
  intros Hx. unfold int.
  replace (x + 2 ^ 63) with ((x - 2 ^ 63) + 1 * 2 ^ 64) by lia.
  rewrite Z.mod_add by lia. rewrite Z.mod_small; lia.
Qed.

(** X3.  In the current revision a limit of zero, or a limit of 2^63 and
    above (which [int(rl.maxRequests)] reads as a negative number), admits
    nobody: every call is rejected and only prunes the caller's entry. *)
Theorem Allow_without_quota_rejects rl now ip :
  maxRequests rl = 0 ∨ 2 ^ 63 ≤ maxRequests rl < 2 ^ 64 →
  Allow rl now ip = (false, store rl ip (prune rl now ip)).
Proof.
  intros Hm. rewrite Allow_unfold.
  rewrite bool_decide_eq_true_2; [done|].
  destruct Hm as [->|Hm]; [rewrite int_small by lia; lia|].
  rewrite int_wraps_negative by done. lia.
Qed.

Lemma Allow_without_quota_rejects_witness :
  let rl := NewRateLimiter 18446744073709551615 60 in
  Allow rl 0 "10.0.0.1" = (false, store rl "10.0.0.1" (prune rl 0 "10.0.0.1")).
Proof.
  intros rl.
  exact (Allow_without_quota_rejects rl 0 "10.0.0.1" ltac:(right; simpl; lia)).
Defined.

(** X4.  In the earlier revision, where the limit is a signed [int], a
    limit of zero or less admits nobody. *)
Theorem AllowLegacy_without_quota_rejects rl now ip :
  maxRequests rl ≤ 0 →
  AllowLegacy rl now ip = (false, store rl ip (prune rl now ip)).
Proof.
  intros Hm. unfold AllowLegacy. cbn zeta.
  rewrite bool_decide_eq_true_2; [done|]. simpl. lia.
Qed.

Lemma AllowLegacy_without_quota_rejects_witness :
  let rl := NewRateLimiter (-1) 60 in
  AllowLegacy rl 0 "10.0.0.1" = (false, store rl "10.0.0.1" (prune rl 0 "10.0.0.1")).
Proof.
  intros rl.
  exact (AllowLegacy_without_quota_rejects rl 0 "10.0.0.1" ltac:(simpl; lia)).
Defined.

Lemma filter_idemp {A} (P : A → Prop) `{∀ x, Decision (P x)} (l : list A) :
  filter P (filter P l) = filter P l.
Proof.
  induction l as [|a l IH]; [done|].
  destruct (decide (P a)).
  - rewrite (filter_cons_True P a l) by done.
    rewrite filter_cons_True by done. by rewrite IH.
  - by rewrite (filter_cons_False P a l) by done.
Qed.

(** Pruning is idempotent at a given instant. *)
Lemma prune_store_prune rl now ip :
  prune (store rl ip (prune rl now ip)) now ip = prune rl now ip.
Proof.
  unfold prune at 1. rewrite stored_store.
  change (timeWindow (store rl ip (prune rl now ip))) with (timeWindow rl).
  unfold prune. apply filter_idemp.
Qed.

(** X5.  A rejected call is not charged: repeating it at the same clock
    reading is rejected again and changes nothing further, so a client
    that keeps calling while over the limit does not push its own
    re-admission back. *)
Theorem rejection_is_idempotent rl now ip :
  (Allow rl now ip).1 = false →
  Allow (Allow rl now ip).2 now ip = (false, (Allow rl now ip).2).
Proof.
  rewrite (Allow_unfold rl). case_bool_decide as Hc; [|done]. intros _. cbn [snd].
  rewrite Allow_unfold, prune_store_prune. simpl maxRequests.
  rewrite bool_decide_eq_true_2 by done. by rewrite store_store.
Qed.

Lemma rejection_is_idempotent_witness :
  let rl := {| requests := {[ "10.0.0.1"%string := [0; 50; 95] ]};
               maxRequests := 2; timeWindow := 60 |} in
  (Allow rl 100 "10.0.0.1").1 = false ∧
  Allow (Allow rl 100 "10.0.0.1").2 100 "10.0.0.1" = (false, (Allow rl 100 "10.0.0.1").2).
Proof.
  intros rl.
  assert ((Allow rl 100 "10.0.0.1").1 = false) as Hno by (vm_compute; reflexivity).
  split; [exact Hno|].
  exact (rejection_is_idempotent rl 100 "10.0.0.1" Hno).
Defined.

(** X6.  A negative window switches the limiter off: with a limit of at
    least one and stored timestamps that are not in the future, every call
    is admitted and the caller's entry is reset to the current reading
    alone. *)
Theorem negative_window_admits rl now ip :
  timeWindow rl < 0 → 1 ≤ maxRequests rl < 2 ^ 63 →
  Forall (λ t, t ≤ now) (stored rl ip) →
  Allow rl now ip = (true, store rl ip [now]).
Proof.
  intros Hw Hm Hpast.
  assert (prune rl now ip = []) as Hp.
  { apply prune_all_expired. eapply Forall_impl; [exact Hpast|].
    intros t Ht. simpl in Ht. unfold Sub, minDuration, maxDuration. lia. }
  rewrite Allow_admit; rewrite ?Hp; simpl; [done|lia|lia].
Qed.

Lemma negative_window_admits_witness :
  let rl := {| requests := {[ "10.0.0.1"%string := [98; 99] ]};
               maxRequests := 1; timeWindow := -1 |} in
  Allow rl 100 "10.0.0.1" = (true, store rl "10.0.0.1" [100]).
Proof.
  intros rl.
  apply (negative_window_admits rl 100 "10.0.0.1").
  - simpl. lia.
  - simpl. lia.
  - repeat constructor; vm_compute; discriminate.
Defined.

Lemma filter_StronglySorted (P : Time → Prop) `{∀ t, Decision (P t)} l :
  StronglySorted Z.le l → StronglySorted Z.le (filter P l).
Proof.
  induction 1 as [|t l Hs IH Hall]; [constructor|].
  destruct (decide (P t)).
  - rewrite filter_cons_True by done. constructor; [done|].
    apply Forall_forall. intros u Hu%list_elem_of_filter.
    rewrite Forall_forall in Hall. apply Hall. tauto.
  - by rewrite filter_cons_False.
Qed.

Lemma StronglySorted_snoc l t :
  StronglySorted Z.le l → Forall (λ u, u ≤ t) l → StronglySorted Z.le (l ++ [t]).
Proof.
  induction 1 as [|u l Hs IH Hall]; intros Hle; simpl.
  - repeat constructor.
  - inversion Hle; subst. constructor; [by apply IH|].
    apply Forall_app. split; [done|]. by constructor.
Qed.

Lemma Allow_chronological T rl now ip :
  T ≤ now → chronological T rl → chronological now (Allow rl now ip).2.
Proof.
  intros HT Hinv ip' l.
  assert (∀ l0, StronglySorted Z.le l0 ∧ Forall (λ t, t ≤ T) l0 →
                StronglySorted Z.le l0 ∧ Forall (λ t, t ≤ now) l0) as Hweak.
  { intros l0 [? Hall]. split; [done|]. eapply Forall_impl; [exact Hall|].
    simpl. intros; lia. }
  destruct (decide (ip' = ip)) as [->|Hne].
  2:{ rewrite Allow_other_client by done. intros Hl. by apply Hweak, (Hinv ip'). }
  assert (StronglySorted Z.le (stored rl ip) ∧ Forall (λ t, t ≤ T) (stored rl ip)) as [Hs Hb].
  { unfold stored. destruct (requests rl !! ip) as [l0|] eqn:E; simpl.
    - by apply (Hinv ip).
    - split; constructor. }
  assert (StronglySorted Z.le (prune rl now ip) ∧ Forall (λ t, t ≤ now) (prune rl now ip)) as [Hps Hpb].
  { split; [by apply filter_StronglySorted|].
    apply Forall_forall. intros t Ht%prune_elem. rewrite Forall_forall in Hb.
    specialize (Hb t). destruct Ht as [_ Ht]. specialize (Hb Ht). lia. }
  rewrite Allow_unfold. case_bool_decide; cbn [snd]; simpl; rewrite lookup_insert_eq;
    intros [= <-]; [done|].
  split; [by apply StronglySorted_snoc|].
  apply Forall_app. split; [done|]. by repeat constructor.
Qed.

Lemma run_chronological calls : ∀ T rl,
  nondecreasing_from T calls → chronological T rl →
  ∃ T', chronological T' (run rl calls).2.
Proof.
  induction calls as [|[now ip] calls IH]; intros T rl Hmono Hinv; simpl.
  - by exists T.
  - destruct Hmono as [HT Hrest].
    pose proof (Allow_chronological T rl now ip HT Hinv) as H1.
    destruct (Allow rl now ip) as [b rl1]. simpl in H1.
    destruct (IH now rl1 Hrest H1) as [T' HT'].
    destruct (run rl1 calls). by exists T'.
Qed.

(** X7.  Under a clock that never goes back, a limiter that starts empty
    keeps every client's timestamps in chronological order, oldest first,
    through any sequence of calls. *)
Theorem monotonic_clock_keeps_timestamps_sorted
    (maxReq : Z) (window : Duration) (T0 : Time) (calls : list (Time * string))
    (ip : string) (l : list Time) :
  nondecreasing_from T0 calls →
  requests (run (NewRateLimiter maxReq window) calls).2 !! ip = Some l →
  StronglySorted Z.le l.
Proof.
  intros Hmono Hl.
  destruct (run_chronological calls T0 (NewRateLimiter maxReq window) Hmono) as [T' HT'].
  { intros ip' l'. simpl. by rewrite lookup_empty. }
  by apply (HT' ip l).
Qed.

Lemma monotonic_clock_keeps_timestamps_sorted_witness :
  let calls := [(0, "10.0.0.1"%string); (5, "10.0.0.2"%string); (5, "10.0.0.1"%string)] in
  requests (run (NewRateLimiter 3 60) calls).2 !! "10.0.0.1"%string = Some [0; 5] ∧
  StronglySorted Z.le [0; 5].
Proof.
  intros calls.
  assert (requests (run (NewRateLimiter 3 60) calls).2 !! "10.0.0.1"%string = Some [0; 5])
    as Hl by (vm_compute; reflexivity).
  split; [exact Hl|].
  apply (monotonic_clock_keeps_timestamps_sorted 3 60 0 calls "10.0.0.1" [0; 5]);
    [|exact Hl].
  simpl. lia.
Defined.

End RateLimiterMore.

(* ===================================================================== *)
(** * The orchestrator: what reaches the validator and what comes back   *)
(* ===================================================================== *)

Section ServiceMore.
Import Utf8 Math Ports Strings Regexp Spec SpecMore.
Context `{Lib} `{UnicodeTables}.

Lemma ValidateAddress_cases (s : Services.AddressService) (address : string) :
  let clean := Services.sanitizeAddress address in
  (clean = ""%string ∨ clean = " "%string) ∧
    Services.ValidateAddress s address
    = {| result := failure ErrEmptyAddress; err := Some ErrEmptyAddress; delegated := [] |}
  ∨
  (clean ≠ ""%string ∧ clean ≠ " "%string) ∧
    delegated (Services.ValidateAddress s address) = [clean] ∧
    err (Services.ValidateAddress s address) = snd (Services.validator s clean) ∧
    (let r := fst (Services.validator s clean) in
     let r' := result (Services.ValidateAddress s address) in
     IsValid r' = IsValid r ∧ FormattedAddress r' = FormattedAddress r ∧
     Latitude r' = Latitude r ∧ Longitude r' = Longitude r ∧ Error r' = Error r ∧
     InRange r' =
       if IsValid r && bool_decide (snd (Services.validator s clean) = None)
       then (Services.calculateDistance (Latitude r) (Longitude r)
               (Services.CenterLat (Services.config s)) (Services.CenterLng (Services.config s))
               (Services.DistanceUnit (Services.config s))
             <=? Services.MaxDistance (Services.config s))%float
       else InRange r).
Proof.
  intros clean. unfold Services.ValidateAddress. fold clean.
  destruct (String.eqb_spec clean "") as [E1|E1]; [left; auto|].
  destruct (String.eqb_spec clean " ") as [E2|E2]; [left; auto|].
  right. split; [done|]. simpl.
  destruct (Services.validator s clean) as [r [e|]]; simpl.
  - rewrite andb_false_r. done.
  - rewrite andb_true_r. destruct (IsValid r) eqn:Hv; simpl; rewrite ?Hv; done.
Qed.

Lemma sanitized_bytes_allowed (address : string) :
  Forall (λ c, allowListed c = true) (bytes (Services.sanitizeAddress address)).
Proof.
  apply Forall_forall. intros c Hc. unfold Services.sanitizeAddress in Hc.
  apply DeleteAllClass_bytes in Hc as [_ Hm].
  unfold classMatches in Hm. destruct (_ <? _); [|done].
  unfold allowListed. unfold Services.allowed in Hm. by destruct (_ || _).
Qed.

(** X8.  The current orchestrator calls the external validator at most
    once, and only with the sanitized address: a text that is neither empty
    nor a single space and holds only characters of the allow-list.  The
    raw input never reaches the validator. *)
Theorem validator_receives_only_sanitized_text
    (s : Services.AddressService) (address : string) :
  (length (delegated (Services.ValidateAddress s address)) ≤ 1)%nat ∧
  ∀ a, a ∈ delegated (Services.ValidateAddress s address) →
    a = Services.sanitizeAddress address ∧ a ≠ ""%string ∧ a ≠ " "%string ∧
    Forall (λ c, allowListed c = true) (bytes a).
Proof.
  destruct (ValidateAddress_cases s address) as [[_ ->]|[[H1 H2] [Hd _]]]; simpl.
  - split; [lia|]. by intros a ?%elem_of_nil.
  - rewrite Hd. split; [simpl; lia|].
    intros a ->%list_elem_of_singleton. auto using sanitized_bytes_allowed.
Qed.

(** X9.  A match outside the geofence is not an error: when the validator
    returns a valid result without an error and the distance to the centre
    exceeds the maximum, the orchestrator returns that result with
    [InRange] false and a nil error.  [ErrOutsideGeofence] is not
    produced. *)
Theorem out_of_range_is_not_an_error
    (s : Services.AddressService) (address : string) (r : AddressValidationResult) :
  Services.sanitizeAddress address ≠ ""%string →
  Services.sanitizeAddress address ≠ " "%string →
  Services.validator s (Services.sanitizeAddress address) = (r, None) →
  IsValid r = true →
  (Services.calculateDistance (Latitude r) (Longitude r)
     (Services.CenterLat (Services.config s)) (Services.CenterLng (Services.config s))
     (Services.DistanceUnit (Services.config s))
   <=? Services.MaxDistance (Services.config s))%float = false →
  Services.ValidateAddress s address
  = {| result := withInRange r false; err := None;
       delegated := [Services.sanitizeAddress address] |}.
Proof.
  intros H1 H2 Hv Hr Hd. unfold Services.ValidateAddress.
  destruct (String.eqb_spec (Services.sanitizeAddress address) ""); [done|].
  destruct (String.eqb_spec (Services.sanitizeAddress address) " "); [done|].
  simpl. rewrite Hv, Hr, Hd. done.
Qed.

(** X10.  The error of the current orchestrator is either
    [ErrEmptyAddress], with the validator not called, or exactly what the
    validator returned for the sanitized address, nil included: the
    orchestrator adds no error of its own after delegating. *)
Theorem error_is_ErrEmptyAddress_or_the_validators
    (s : Services.AddressService) (address : string) :
  err (Services.ValidateAddress s address) = Some ErrEmptyAddress ∧
    delegated (Services.ValidateAddress s address) = [] ∨
  err (Services.ValidateAddress s address)
    = snd (Services.validator s (Services.sanitizeAddress address)) ∧
    delegated (Services.ValidateAddress s address) = [Services.sanitizeAddress address].
Proof.
  destruct (ValidateAddress_cases s address) as [[_ ->]|[_ (Hd & He & _)]]; simpl; auto.
Qed.

(** X11.  When the validator is called, the orchestrator passes its result
    through: validity, formatted address, coordinates and message are the
    validator's.  [InRange] is the validator's too when it returned an
    error or an invalid result, and is recomputed from the distance to the
    centre only for a valid result without error. *)
Theorem only_InRange_is_rewritten (s : Services.AddressService) (address : string) :
  Services.sanitizeAddress address ≠ ""%string →
  Services.sanitizeAddress address ≠ " "%string →
  let r := fst (Services.validator s (Services.sanitizeAddress address)) in
  let e := snd (Services.validator s (Services.sanitizeAddress address)) in
  let r' := result (Services.ValidateAddress s address) in
  IsValid r' = IsValid r ∧ FormattedAddress r' = FormattedAddress r ∧
  Latitude r' = Latitude r ∧ Longitude r' = Longitude r ∧ Error r' = Error r ∧
  (e ≠ None ∨ IsValid r = false → InRange r' = InRange r) ∧
  (e = None → IsValid r = true →
     InRange r' =
       (Services.calculateDistance (Latitude r) (Longitude r)
          (Services.CenterLat (Services.config s)) (Services.CenterLng (Services.config s))
          (Services.DistanceUnit (Services.config s))
        <=? Services.MaxDistance (Services.config s))%float).
Proof.
  intros H1 H2 r e r'.
  destruct (ValidateAddress_cases s address) as [[[?|?] _]|[_ (_ & _ & Hr)]]; try done.
  destruct Hr as (Hv & Hf & Hlat & Hlng & Herr & Hin).
  fold r r' e in Hv, Hf, Hlat, Hlng, Herr, Hin |- *.
  repeat split; try done.
  - intros [He|Hrv]; rewrite Hin.
    + case_bool_decide; [done|]. by rewrite andb_false_r.
    + by rewrite Hrv.
  - intros He Hrv. rewrite Hin, Hrv. by rewrite bool_decide_eq_true_2.
Qed.

Lemma replaceRuns_no_class class repl s : ∀ inRun,
  Forall (λ c, class c = false) (bytes s) → replaceRuns class repl inRun s = s.
Proof.
  induction s as [|a s IH]; intros inRun Hall; [done|].
  simpl in *. inversion Hall as [|? ? Ha Hs]; subst. rewrite Ha. by rewrite IH.
Qed.

Lemma DeleteAllClass_all negated class s :
  Forall (λ c, classMatches negated class c = true) (bytes s) →
  DeleteAllClass negated class s = ""%string.
Proof.
  induction s as [|a s IH]; intros Hall; [done|].
  simpl in *. inversion Hall as [|? ? Ha Hs]; subst. rewrite Ha. by apply IH.
Qed.

Lemma substring_zero_length s : ∀ n, String.substring n 0 s = ""%string.
Proof. induction s as [|a s IH]; intros [|n]; simpl; auto. Qed.

Lemma get_bytes s : ∀ n c, String.get n s = Some c → c ∈ bytes s.
Proof.
  induction s as [|a s IH]; intros [|n] c; simpl; try done.
  - intros [= ->]. by left.
  - intros Hc. right. by eapply IH.
Qed.

Lemma get_in_range s : ∀ n, (n < String.length s)%nat → ∃ c, String.get n s = Some c.
Proof.
  induction s as [|a s IH]; intros [|n]; simpl; try lia; eauto.
  intros Hn. apply IH. lia.
Qed.

Lemma trimStart_all_space s :
  Forall (λ c, asciiSpace (byte c) = true) (bytes s) →
  ∀ fuel start, 0 ≤ start ≤ len s → len s - start < Z.of_nat fuel →
    trimStart fuel s start = inl (len s).
Proof.
  intros Hall. induction fuel as [|fuel IH]; intros start Hs Hf; [lia|].
  simpl. destruct (Z.leb_spec (len s) start) as [Hle|Hlt].
  - f_equal. lia.
  - destruct (get_in_range s (Z.to_nat start)) as [c Hc]; [unfold len in *; lia|].
    unfold at_. rewrite Hc.
    rewrite Forall_forall in Hall. pose proof (Hall c (get_bytes _ _ _ Hc)) as Hsp.
    assert (byte c < RuneSelf) as Hascii.
    { unfold asciiSpace, RuneSelf in *.
      repeat (apply orb_prop in Hsp as [Hsp|Hsp]); apply Z.eqb_eq in Hsp; lia. }
    destruct (Z.leb_spec RuneSelf (byte c)); [lia|].
    rewrite Hsp. simpl. apply IH; lia.
Qed.

Lemma TrimSpace_all_space s :
  Forall (λ c, asciiSpace (byte c) = true) (bytes s) → TrimSpace s = ""%string.
Proof.
  intros Hall. unfold TrimSpace.
  rewrite (trimStart_all_space s Hall) by (unfold len; lia).
  simpl. rewrite Z.leb_refl. unfold slice. rewrite Z.sub_diag. apply substring_zero_length.
Qed.

Lemma sanitizeAddress_blank (input : string) :
  Forall (λ c, Services.allowed c = false) (bytes input) ∨
  Forall (λ c, asciiSpace (byte c) = true) (bytes input) →
  Services.sanitizeAddress input = ""%string.
Proof.
  intros [Hbad|Hsp]; unfold Services.sanitizeAddress.
  - assert (Forall (λ c, Services.allowed c = false) (bytes (TrimSpace input))) as Ht.
    { rewrite Forall_forall in Hbad |- *. intros c Hc. by apply Hbad, TrimSpace_bytes. }
    unfold ReplaceAllClassPlus. rewrite replaceRuns_no_class.
    + apply DeleteAllClass_all. eapply Forall_impl; [exact Ht|].
      intros c Hc. simpl in Hc. unfold classMatches. rewrite Hc. by destruct (_ <? _).
    + eapply Forall_impl; [exact Ht|]. intros c Hc. simpl in Hc.
      unfold Services.allowed in Hc. by destruct (perl_w c), (perl_s c).
  - by rewrite TrimSpace_all_space.
Qed.

(** X12.  An input made only of characters outside the allow-list, or only
    of ASCII whitespace, sanitizes to the empty string and is rejected with
    [ErrEmptyAddress] without the validator being called. *)
Theorem blank_input_is_rejected_unseen (s : Services.AddressService) (input : string) :
  Forall (λ c, Services.allowed c = false) (bytes input) ∨
  Forall (λ c, asciiSpace (byte c) = true) (bytes input) →
  Services.ValidateAddress s input
  = {| result := failure ErrEmptyAddress; err := Some ErrEmptyAddress; delegated := [] |}.
Proof.
  intros Hblank. unfold Services.ValidateAddress.
  by rewrite (sanitizeAddress_blank input Hblank).
Qed.

Lemma substring_whole s : String.substring 0 (String.length s) s = s.
Proof. induction s as [|a s IH]; [done|]. simpl. by rewrite IH. Qed.

(** A string that begins and ends with an ASCII byte that is no space is
    left as it is by [TrimSpace]. *)
Lemma TrimSpace_fixed (s : string) (c1 c2 : ascii) :
  String.get 0 s = Some c1 →
  String.get (String.length s - 1) s = Some c2 →
  byte c1 < RuneSelf → asciiSpace (byte c1) = false →
  byte c2 < RuneSelf → asciiSpace (byte c2) = false →
  TrimSpace s = s.
Proof.
  intros Hfirst Hlast Ha1 Hs1 Ha2 Hs2.
  assert (0 < len s) as Hlen.
  { unfold len. destruct s; [done|]. simpl. lia. }
  assert (at_ s 0 = byte c1) as Hat1.
  { unfold at_. change (Z.to_nat 0) with 0%nat. by rewrite Hfirst. }
  assert (at_ s (len s - 1) = byte c2) as Hat2.
  { unfold at_. replace (Z.to_nat (len s - 1)) with (String.length s - 1)%nat
      by (unfold len; lia). by rewrite Hlast. }
  unfold TrimSpace. cbn [trimStart].
  destruct (Z.leb_spec (len s) 0); [lia|].
  rewrite !Hat1.
  destruct (Z.leb_spec RuneSelf (byte c1)); [lia|]. rewrite Hs1. cbn [negb trimStop].
  destruct (Z.leb_spec (len s) 0); [lia|].
  rewrite !Hat2.
  destruct (Z.leb_spec RuneSelf (byte c2)); [lia|]. rewrite Hs2. cbn [negb].
  unfold slice. change (Z.to_nat 0) with 0%nat.
  replace (Z.to_nat (len s - 0)) with (String.length s) by (unfold len; lia).
  apply substring_whole.
Qed.

Lemma hashes_last n :
  String.get (String.length (hashes n) - 1) (hashes n) = Some "#"%char.
Proof.
  induction n as [|n IH]; [done|].
  cbn [hashes String.length].
  replace (S (S (String.length (hashes n))) - 1)%nat
    with (S (S (String.length (hashes n) - 1))).
  - exact IH.
  - destruct n; simpl; lia.
Qed.

Lemma TrimSpace_hashes n : TrimSpace (hashes n) = hashes n.
Proof.
  apply (TrimSpace_fixed (hashes n) "#" "#");
    [by destruct n | apply hashes_last | done..].
Qed.

Lemma replaceRuns_hashes n : ∀ inRun,
  replaceRuns perl_s " " inRun (hashes n) = hashes n.
Proof.
  induction n as [|n IH]; intros inRun; [done|].
  cbn [hashes]. simpl. by rewrite IH.
Qed.

Lemma DeleteAllClass_hashes n :
  DeleteAllClass true Services.allowed (hashes n) = repeatString n " ".
Proof.
  induction n as [|n IH]; [done|].
  cbn [hashes]. simpl. by rewrite IH.
Qed.

(** X13.  The emptiness check covers the empty string and one space only.
    An input of [n + 1] hash signs separated by single spaces sanitizes to
    [n] spaces, and from two spaces on this blank text is handed to the
    validator. *)
Theorem blank_text_reaches_the_validator (s : Services.AddressService) (n : nat) :
  (2 ≤ n)%nat →
  Services.sanitizeAddress (hashes n) = repeatString n " " ∧
  delegated (Services.ValidateAddress s (hashes n)) = [repeatString n " "].
Proof.
  intros Hn.
  assert (Services.sanitizeAddress (hashes n) = repeatString n " ") as Hs.
  { unfold Services.sanitizeAddress, ReplaceAllClassPlus.
    by rewrite TrimSpace_hashes, replaceRuns_hashes, DeleteAllClass_hashes. }
  split; [done|].
  destruct (ValidateAddress_cases s (hashes n)) as [[Hblank _]|[_ [Hd _]]].
  - rewrite Hs in Hblank. destruct n as [|[|n]]; [lia|lia|].
    simpl in Hblank. by destruct Hblank.
  - by rewrite Hd, Hs.
Qed.

(** X14.  The earlier orchestrator never reaches the validator: an input
    that sanitizes to the empty string is rejected with [ErrEmptyAddress],
    and every other input panics in [isSuspicious], whose pattern does not
    compile. *)
Theorem earlier_orchestrator_never_delegates
    (s : ServicesLegacy.AddressService) (address : string) :
  ServicesLegacy.sanitizeAddress address = ""%string ∧
    ServicesLegacy.ValidateAddress s address
    = Done {| result := failure ErrEmptyAddress; err := Some ErrEmptyAddress;
              delegated := [] |}
  ∨
  ServicesLegacy.sanitizeAddress address ≠ ""%string ∧
    ∃ msg, ServicesLegacy.ValidateAddress s address = Panic msg.
Proof.
  unfold ServicesLegacy.ValidateAddress.
  destruct (String.eqb_spec (ServicesLegacy.sanitizeAddress address) "") as [E|E].
  - left. done.
  - right. split; [done|]. eexists. reflexivity.
Qed.

End ServiceMore.

Lemma out_of_range_is_not_an_error_witness :
  @Services.ValidateAddress Approx.math Approx.unicode
     (Scenario.service Scenario.manhattan 10) "1 Centre St, New York"
  = {| Ports.result :=
         Ports.mkResult true "New York, NY 10007, USA" 40.7128 (-74.0060) false "";
       Ports.err := None;
       Ports.delegated := ["1 Centre St, New York"%string] |}.
Proof.
  apply (@out_of_range_is_not_an_error Approx.math Approx.unicode
           (Scenario.service Scenario.manhattan 10) "1 Centre St, New York"
           (Ports.mkResult true "New York, NY 10007, USA" 40.7128 (-74.0060) false "")).
  - vm_compute. discriminate.
  - vm_compute. discriminate.
  - reflexivity.
  - reflexivity.
  - vm_compute. reflexivity.
Defined.

Lemma only_InRange_is_rewritten_witness :
  let r := Ports.result
     (@Services.ValidateAddress Approx.math Approx.unicode
        (Scenario.service Scenario.bronx 10) "123 Main St, Bronx, NY") in
  Ports.FormattedAddress r = "123 Main St, Bronx, NY 10456, USA"%string ∧
  Ports.Latitude r = 40.8448%float ∧ Ports.Longitude r = (-73.8648)%float.
Proof.
  intros r.
  destruct (@only_InRange_is_rewritten Approx.math Approx.unicode
              (Scenario.service Scenario.bronx 10) "123 Main St, Bronx, NY")
    as (_ & Hf & Hlat & Hlng & _).
  - vm_compute. discriminate.
  - vm_compute. discriminate.
  - split; [exact Hf|]. split; [exact Hlat | exact Hlng].
Defined.

Lemma blank_input_is_rejected_unseen_witness :
  @Services.ValidateAddress Approx.math Approx.unicode
     (Scenario.service Scenario.bronx 10) "<#>!"
  = {| Ports.result := Ports.failure Ports.ErrEmptyAddress;
       Ports.err := Some Ports.ErrEmptyAddress; Ports.delegated := [] |}.
Proof.
  apply (@blank_input_is_rejected_unseen Approx.math Approx.unicode).
  left. repeat constructor.
Defined.

Lemma blank_text_reaches_the_validator_witness :
  Services.sanitizeAddress "# # #" = "  "%string ∧
  Ports.delegated (@Services.ValidateAddress Approx.math Approx.unicode
     (Scenario.service Scenario.bronx 10) "# # #") = ["  "%string].
Proof.
  apply (@blank_text_reaches_the_validator Approx.math Approx.unicode
           (Scenario.service Scenario.bronx 10) 2).
  lia.
Defined.

(* ===================================================================== *)
(** * Configuration from the environment                                 *)
(* ===================================================================== *)

Section ConfigFacts.
Import Time Strconv Config Ports.

Lemma Atoi_range s v : Atoi s = Some v → - 2 ^ 63 ≤ v ≤ 2 ^ 63 - 1.
Proof.
  unfold Atoi. destruct s as [|c t]; [done|].
  destruct (if _ : bool then t else String c t); [done|].
  destruct (digits 0 _) as [n|]; [|done].
  destruct (Z.leb_spec (- 2 ^ 63) (if Ascii.eqb c "-" then - n else n)); [|done].
  destruct (Z.leb_spec (if Ascii.eqb c "-" then - n else n) (2 ^ 63 - 1)); [|done].
  simpl. intros [= <-]. lia.
Qed.

Lemma ParseStringToUint16_range s v :
  ParseStringToUint16 s = Some v → 0 ≤ v ≤ 65535.
Proof.
  unfold ParseStringToUint16, ParseInt. destruct (Atoi s) as [num|]; [|done].
  destruct (Z.ltb_spec num 0); [done|]. destruct (Z.ltb_spec 65535 num); [done|].
  simpl. intros [= <-]. lia.
Qed.

(** X15.  Whatever the environment holds, [NewInfraConfig] returns a port
    between 1024 and 65534: either the default 8080 or the value parsed
    from PORT.  HTTPS is required unless REQUIRE_HTTPS is exactly the
    lower-case word false, and the environment is production unless
    ENVIRONMENT is exactly DEVELOPMENT. *)
Theorem NewInfraConfig_port_is_unprivileged (getenv : Env) :
  1024 ≤ Port (NewInfraConfig getenv) ≤ 65534 ∧
  (Port (NewInfraConfig getenv) = 8080 ∨
   ParseStringToUint16 (getenv "PORT") = Some (Port (NewInfraConfig getenv))) ∧
  (IsHttpSecure (NewInfraConfig getenv) = false ↔ getenv "REQUIRE_HTTPS" = "false"%string) ∧
  (Environment_ (NewInfraConfig getenv) = ENV_DEVELOPMENT ↔
   getenv "ENVIRONMENT" = "DEVELOPMENT"%string).
Proof.
  unfold NewInfraConfig. simpl. split; [|split; [|split]].
  - destruct (_ =? _)%string; [lia|].
    destruct (ParseStringToUint16 _) as [p|] eqn:Hp; [|lia].
    apply ParseStringToUint16_range in Hp.
    destruct (Z.eqb_spec p 0); [lia|]. destruct (Z.leb_spec p 1023); [lia|].
    destruct (Z.eqb_spec p 65535); lia.
  - destruct (_ =? _)%string; [by left|].
    destruct (ParseStringToUint16 _) as [p|] eqn:Hp; [|by left].
    destruct (Z.eqb_spec p 0); [by left|]. destruct (Z.leb_spec p 1023); [by left|].
    destruct (Z.eqb_spec p 65535); [by left|by right].
  - destruct (String.eqb_spec (getenv "REQUIRE_HTTPS") "false"); simpl; split; done.
  - destruct (String.eqb_spec (getenv "ENVIRONMENT") ""); [split; [done|congruence]|].
    destruct (String.eqb_spec (getenv "ENVIRONMENT") "DEVELOPMENT"); split; done.
Qed.

(** The cases of the repository's test table for the port. *)
Example NewInfraConfig_test_table :
  let env (port : string) : Env := λ k, if (k =? "PORT")%string then port else ""%string in
  Port (NewInfraConfig (env "")) = 8080 ∧
  Port (NewInfraConfig (env "0")) = 8080 ∧
  Port (NewInfraConfig (env "65535")) = 8080 ∧
  Port (NewInfraConfig (env "1023")) = 8080 ∧
  Port (NewInfraConfig (env "add_port")) = 8080 ∧
  Port (NewInfraConfig (env "3000")) = 3000.
Proof. vm_compute. repeat split. Qed.

(** X16.  Whatever the environment holds, [NewRateLimitConfig] returns a
    limit of at least one that [int] reads unchanged, either the default 10
    or the value parsed from RATE_LIMIT_MAX_REQUESTS, and a window of 60
    seconds: the variable for the window is never read.  The limiter built
    from it admits the first request of every client. *)
Theorem NewRateLimitConfig_is_usable (getenv : Env) :
  let config := NewRateLimitConfig getenv in
  1 ≤ MaxRequests config < 2 ^ 63 ∧
  TimeWindow config = 60 * Second ∧
  (MaxRequests config = 10 ∨
   Atoi (getenv "RATE_LIMIT_MAX_REQUESTS") = Some (MaxRequests config)) ∧
  ∀ (now : Time) (ip : string),
    Handlers.Allow (NewRateLimiter config) now ip
    = (true, Handlers.store (NewRateLimiter config) ip [now]).
Proof.
  intros config.
  assert (1 ≤ MaxRequests config < 2 ^ 63) as Hmax.
  { subst config. unfold NewRateLimitConfig. simpl.
    destruct (Atoi _) as [v|] eqn:Hv; [|lia].
    apply Atoi_range in Hv. destruct (Z.ltb_spec 0 v); lia. }
  split; [exact Hmax|]. split; [done|]. split.
  - subst config. unfold NewRateLimitConfig. simpl.
    destruct (Atoi _) as [v|] eqn:Hv; [|by left].
    destruct (Z.ltb_spec 0 v); [by right|by left].
  - intros now ip.
    assert (Handlers.prune (NewRateLimiter config) now ip = []) as Hp by done.
    rewrite Allow_admit; [by rewrite Hp| |].
    + change (0 ≤ MaxRequests config < 2 ^ 63). lia.
    + rewrite Hp. change (0 < MaxRequests config). lia.
Qed.

(** X17.  When [NewMapConfig] returns at all (it ends the process when the
    API key or a centre coordinate is missing or malformed), the key is not
    empty, the unit is km or mi, with km only when MAP_DISTANCE_UNIT is
    exactly km, the maximum distance is positive, the centre is what was
    parsed, and country and locality are us and Bronx whatever the
    environment says. *)
Theorem NewMapConfig_is_wellformed `{FloatParser} (getenv : Env) (cfg : Services.MapConfig) :
  NewMapConfig getenv = Some cfg →
  Services.GoogleMapsAPIKey cfg ≠ ""%string ∧
  (Services.DistanceUnit cfg = "km"%string ∨ Services.DistanceUnit cfg = "mi"%string) ∧
  (Services.DistanceUnit cfg = "km"%string ↔ getenv "MAP_DISTANCE_UNIT" = "km"%string) ∧
  (0 <? Services.MaxDistance cfg)%float = true ∧
  Services.Country cfg = "us"%string ∧ Services.Locality cfg = "Bronx"%string ∧
  ParseFloat (getenv "MAP_CENTER_LAT") = Some (Services.CenterLat cfg) ∧
  ParseFloat (getenv "MAP_CENTER_LNG") = Some (Services.CenterLng cfg).
Proof.
  unfold NewMapConfig.
  destruct (String.eqb_spec (getenv "GOOGLE_MAPS_API_KEY") "") as [|Hkey]; [done|].
  destruct (getenv "MAP_CENTER_LAT" =? "")%string; [done|].
  destruct (ParseFloat (getenv "MAP_CENTER_LAT")) as [lat|]; [|done].
  destruct (getenv "MAP_CENTER_LNG" =? "")%string; [done|].
  destruct (ParseFloat (getenv "MAP_CENTER_LNG")) as [lng|]; [|done].
  intros [= <-]. simpl. unfold DISTANCE_MILES, DISTANCE_KILOMETER.
  repeat split; try done.
  - destruct (String.eqb_spec (getenv "MAP_DISTANCE_UNIT") ""); [by right|].
    destruct (String.eqb_spec (getenv "MAP_DISTANCE_UNIT") "km"); [by left|].
    destruct (String.eqb_spec (getenv "MAP_DISTANCE_UNIT") "mi"); by right.
  - destruct (String.eqb_spec (getenv "MAP_DISTANCE_UNIT") "") as [->|]; [done|].
    destruct (String.eqb_spec (getenv "MAP_DISTANCE_UNIT") "km"); [done|].
    destruct (String.eqb_spec (getenv "MAP_DISTANCE_UNIT") "mi"); done.
  - intros Hkm. rewrite Hkm. done.
  - destruct (getenv "MAP_MAX_DISTANCE" =? "")%string; [done|].
    destruct (ParseFloat (getenv "MAP_MAX_DISTANCE")) as [d|]; [|done].
    by destruct (0 <? d)%float eqn:Hd.
Qed.

(** X18.  Whatever the environment holds, [NewLoggerConfig] returns one of
    the fourteen level names, the encoding json or console, and output and
    error paths without two consecutive dots: each path is its default or a
    value of the environment that matched the path pattern.  Development
    mode is on exactly when the environment is not production. *)
Theorem NewLoggerConfig_is_sanitised
    (pathPatterns : string → bool) (getenv : Env) (environment : Environment) :
  let config := NewLoggerConfig pathPatterns getenv environment in
  Level config ∈ levels ∧
  (Encoding config = "json"%string ∨ Encoding config = "console"%string) ∧
  Contains (OutputPath config) ".." = false ∧
  Contains (ErrorPath config) ".." = false ∧
  (OutputPath config = "stdout"%string ∨
   OutputPath config = getenv "OUTPUT_PATH" ∧ pathPatterns (OutputPath config) = true) ∧
  (ErrorPath config = "stderr"%string ∨
   ErrorPath config = getenv "ERROR_PATH" ∧ pathPatterns (ErrorPath config) = true) ∧
  (IsDevelopment config = true ↔ environment ≠ ENV_PRODUCTION).
Proof.
  assert (∀ path var, Contains path ".." = false →
            Contains (setPath pathPatterns getenv path var) ".." = false ∧
            (setPath pathPatterns getenv path var = path ∨
             setPath pathPatterns getenv path var = getenv var ∧
             pathPatterns (setPath pathPatterns getenv path var) = true)) as Hpath.
  { intros path var Hp. unfold setPath.
    destruct (getenv var =? "")%string; [auto|].
    destruct (pathPatterns (getenv var)) eqn:Hm; simpl; [|auto].
    destruct (Contains (getenv var) "..") eqn:Hc; auto. }
  intros config. subst config. unfold NewLoggerConfig.
  cbn [Level Encoding OutputPath ErrorPath IsDevelopment].
  split; [|split; [|split; [|split; [|split; [|split]]]]].
  - destruct (negb _ && existsb _ levels) eqn:Hl.
    + apply andb_prop in Hl as [_ Hl]. apply existsb_exists in Hl as (x & Hx & Heq).
      apply String.eqb_eq in Heq. subst x. by apply list_elem_of_In.
    + apply list_elem_of_In. by left.
  - destruct (negb _ && _) eqn:He; [|by left].
    apply andb_prop in He as [_ He]. apply orb_prop in He as [He|He];
      apply String.eqb_eq in He; auto.
  - by apply Hpath.
  - by apply Hpath.
  - by apply (Hpath "stdout"%string "OUTPUT_PATH"%string).
  - by apply (Hpath "stderr"%string "ERROR_PATH"%string).
  - destruct environment; split; done.
Qed.

End ConfigFacts.

Lemma NewMapConfig_is_wellformed_witness :
  let getenv := StandIns.env
    [("GOOGLE_MAPS_API_KEY", "key"); ("MAP_DISTANCE_UNIT", "KM");
     ("MAP_CENTER_LAT", "40.8448"); ("MAP_CENTER_LNG", "-73.8648");
     ("MAP_COUNTRY", "ca")]%string in
  let cfg := Services.mkMapConfig "key" 2 "mi" 40.8448 (-73.8648) "us" "Bronx" in
  @Config.NewMapConfig StandIns.floats getenv = Some cfg ∧
  (Services.DistanceUnit cfg = "km"%string ↔ getenv "MAP_DISTANCE_UNIT" = "km"%string) ∧
  Services.Country cfg = "us"%string.
Proof.
  intros getenv cfg.
  assert (@Config.NewMapConfig StandIns.floats getenv = Some cfg) as Hcfg
    by (vm_compute; reflexivity).
  split; [exact Hcfg|].
  destruct (@NewMapConfig_is_wellformed StandIns.floats getenv cfg Hcfg)
    as (_ & _ & Hunit & _ & Hcountry & _).
  split; [exact Hunit | exact Hcountry].
Defined.

Section ConfigLegacyFacts.
Import Time Strconv ConfigLegacy.
Context `{FloatParser}.

Lemma mulDuration_exact val :
  1 ≤ val ≤ 9223372036 → mulDuration val Second = val * Second.
Proof.
  intros Hv. unfold mulDuration, Second. rewrite Z.mod_small; lia.
Qed.

Lemma mulDuration_wraps_negative val :
  9223372037 ≤ val ≤ 18446744073 → mulDuration val Second < 0.
Proof.
  intros Hv. unfold mulDuration, Second.
  replace (val * 1000000000 + 2 ^ 63)
    with ((val * 1000000000 - 2 ^ 63) + 1 * 2 ^ 64) by lia.
  rewrite Z.mod_add by lia. rewrite Z.mod_small; lia.
Qed.

(** X19.  When the earlier [LoadConfig] returns a configuration, its limit
    is at least one.  Its window is the number of seconds given in
    RATE_LIMIT_TIME_WINDOW_SECONDS up to 9223372036; from 9223372037 to
    18446744073 the product with [time.Second] overflows and the window is
    negative; a value that does not parse or is not positive gives 60
    seconds. *)
Theorem LoadConfig_rate_limit (getenv : Env) (cfg : Config) :
  LoadConfig getenv = Some cfg →
  1 ≤ MaxRequests (RateLimit cfg) < 2 ^ 63 ∧
  (∀ val, Atoi (getenv "RATE_LIMIT_TIME_WINDOW_SECONDS") = Some val →
     (1 ≤ val ≤ 9223372036 → TimeWindow (RateLimit cfg) = val * Second) ∧
     (9223372037 ≤ val ≤ 18446744073 → TimeWindow (RateLimit cfg) < 0) ∧
     (val ≤ 0 → TimeWindow (RateLimit cfg) = 60 * Second)) ∧
  (Atoi (getenv "RATE_LIMIT_TIME_WINDOW_SECONDS") = None →
     TimeWindow (RateLimit cfg) = 60 * Second).
Proof.
  unfold LoadConfig.
  destruct (getenv "GOOGLE_MAPS_API_KEY" =? "")%string; [done|].
  intros [= <-]. simpl. split; [|split].
  - destruct (_ =? _)%string; [lia|].
    destruct (Atoi _) as [v|] eqn:Hv; [|lia].
    apply Atoi_range in Hv. destruct (Z.ltb_spec 0 v); lia.
  - intros val Hval.
    assert (getenv "RATE_LIMIT_TIME_WINDOW_SECONDS" ≠ ""%string) as Hne.
    { intros E. by rewrite E in Hval. }
    destruct (String.eqb_spec (getenv "RATE_LIMIT_TIME_WINDOW_SECONDS") ""); [done|].
    rewrite Hval. split; [|split]; intros Hr.
    + destruct (Z.ltb_spec 0 val); [|lia]. by apply mulDuration_exact.
    + destruct (Z.ltb_spec 0 val); [|lia]. by apply mulDuration_wraps_negative.
    + destruct (Z.ltb_spec 0 val); [lia|done].
  - intros Hnone. destruct (_ =? _)%string; [done|]. by rewrite Hnone.
Qed.

End ConfigLegacyFacts.

Lemma LoadConfig_rate_limit_witness :
  let getenv := StandIns.env
    [("GOOGLE_MAPS_API_KEY", "key");
     ("RATE_LIMIT_TIME_WINDOW_SECONDS", "9223372037")]%string in
  ∃ cfg, @ConfigLegacy.LoadConfig StandIns.floats getenv = Some cfg ∧
         ConfigLegacy.TimeWindow (ConfigLegacy.RateLimit cfg) < 0.
Proof.
  intros getenv.
  destruct (@ConfigLegacy.LoadConfig StandIns.floats getenv) as [cfg|] eqn:Hcfg;
    [|exfalso; vm_compute in Hcfg; discriminate].
  exists cfg. split; [reflexivity|].
  destruct (@LoadConfig_rate_limit StandIns.floats getenv cfg Hcfg) as (_ & Hwin & _).
  destruct (Hwin 9223372037) as (_ & Hneg & _); [vm_compute; reflexivity|].
  apply Hneg. lia.
Defined.

(* ===================================================================== *)
(** * The adapters                                                       *)
(* ===================================================================== *)

Section AdapterFacts.
Import Ports Adapters SpecMore.

Lemma ValidateAddress_verdict (gava : GoogleAddressValidationAdapter) (address : string)
    (verdict : Verdict) (addr : option string) (geo : option (option LatLng)) :
  client gava address (Services.Country (config gava)) (Services.Locality (config gava))
  = (Some (mkResponse (Some (mkValidationResult (Some verdict) addr geo))), None) →
  snd (ValidateAddress gava address) = None ∧
  IsValid (fst (ValidateAddress gava address))
  = stringGe (ValidationGranularity verdict) "PREMISE" && AddressComplete verdict.
Proof.
  intros Hc. unfold ValidateAddress. rewrite Hc.
  destruct geo as [[loc|]|]; simpl; split; done.
Qed.

(** X20.  The adapter compares the validation granularity with the word
    PREMISE as text.  Among the values the API documents, a complete
    address is therefore accepted at PREMISE, PREMISE_PROXIMITY and
    SUB_PREMISE, and also at ROUTE, which is coarser than a premise; it is
    refused at BLOCK, OTHER and GRANULARITY_UNSPECIFIED. *)
Theorem granularity_is_compared_as_text (gava : GoogleAddressValidationAdapter)
    (address : string) (verdict : Verdict) (addr : option string)
    (geo : option (option LatLng)) :
  client gava address (Services.Country (config gava)) (Services.Locality (config gava))
  = (Some (mkResponse (Some (mkValidationResult (Some verdict) addr geo))), None) →
  ValidationGranularity verdict ∈ granularities →
  (IsValid (fst (ValidateAddress gava address)) = true ↔
   AddressComplete verdict = true ∧
   ValidationGranularity verdict ∈
     ["PREMISE"; "PREMISE_PROXIMITY"; "SUB_PREMISE"; "ROUTE"]%string).
Proof.
  intros Hc Hg. destruct (ValidateAddress_verdict gava address verdict addr geo Hc)
    as (_ & ->).
  assert (stringGe (ValidationGranularity verdict) "PREMISE"
          = bool_decide (ValidationGranularity verdict ∈
              ["PREMISE"; "PREMISE_PROXIMITY"; "SUB_PREMISE"; "ROUTE"]%string)) as ->.
  { unfold granularities in Hg.
    repeat (apply elem_of_cons in Hg as [->|Hg]); try (by apply elem_of_nil in Hg);
      vm_compute; reflexivity. }
  rewrite andb_true_iff, bool_decide_eq_true. tauto.
Qed.

Lemma granularity_is_compared_as_text_witness :
  let gava :=
    {| client := λ _ _ _,
         (Some (mkResponse (Some (mkValidationResult
            (Some (mkVerdict "ROUTE" "ROUTE" true)) (Some "Main St, Bronx, NY"%string)
            (Some (Some (mkLatLng 40.8448 (-73.8648))))))), None);
       config := Services.mkMapConfig "key" 2 "mi" 40.8448 (-73.8648) "us" "Bronx" |} in
  IsValid (fst (ValidateAddress gava "Main St")) = true.
Proof.
  intros gava.
  apply (granularity_is_compared_as_text gava "Main St"
           (mkVerdict "ROUTE" "ROUTE" true) (Some "Main St, Bronx, NY"%string)
           (Some (Some (mkLatLng 40.8448 (-73.8648))))).
  - reflexivity.
  - unfold granularities. set_solver.
  - split; [reflexivity|]. set_solver.
Defined.

(** X21.  Every result of the adapter that is not valid carries a message,
    every valid one carries none and comes without an error, an error
    always comes with an invalid result, and the adapter itself never sets
    [InRange]. *)
Theorem adapter_failure_carries_a_message
    (gava : GoogleAddressValidationAdapter) (address : string) :
  let r := fst (ValidateAddress gava address) in
  let e := snd (ValidateAddress gava address) in
  (IsValid r = true → e = None ∧ Error r = ""%string) ∧
  (IsValid r = false → Error r ≠ ""%string) ∧
  (e ≠ None → IsValid r = false) ∧
  InRange r = false.
Proof.
  unfold ValidateAddress.
  destruct (client gava address _ _) as [resp [e|]]; simpl; [done|].
  destruct resp as [[[[[verdict|] addr geo]|]]|]; simpl; try done.
  destruct geo as [[loc|]|]; simpl;
    destruct (stringGe _ _ && AddressComplete verdict) eqn:Hv; simpl;
    repeat split; try done; intros _;
    destruct (InputGranularity verdict =? "OTHER")%string,
             (AddressComplete verdict); simpl; done.
Qed.

Section Composed.
Context `{Math.Lib} `{Strings.UnicodeTables}.

(** X22.  When the API accepts an address and returns no geocode, the
    adapter leaves latitude and longitude at zero, and the orchestrator in
    front of it decides [InRange] from the distance between the centre and
    the point at latitude 0, longitude 0. *)
Theorem match_without_geocode_is_measured_from_zero
    (gava : GoogleAddressValidationAdapter) (address : string)
    (verdict : Verdict) (addr : option string) :
  let s := {| Services.validator := ValidateAddress gava; Services.config := config gava |} in
  let clean := Services.sanitizeAddress address in
  clean ≠ ""%string → clean ≠ " "%string →
  client gava clean (Services.Country (config gava)) (Services.Locality (config gava))
  = (Some (mkResponse (Some (mkValidationResult (Some verdict) addr None))), None) →
  stringGe (ValidationGranularity verdict) "PREMISE" = true →
  AddressComplete verdict = true →
  let r := result (Services.ValidateAddress s address) in
  err (Services.ValidateAddress s address) = None ∧
  IsValid r = true ∧ Latitude r = 0%float ∧ Longitude r = 0%float ∧
  InRange r =
    (Services.calculateDistance 0 0
       (Services.CenterLat (config gava)) (Services.CenterLng (config gava))
       (Services.DistanceUnit (config gava))
     <=? Services.MaxDistance (config gava))%float.
Proof.
  intros s clean H1 H2 Hc Hg Hcomplete.
  unfold Services.ValidateAddress. fold clean.
  destruct (String.eqb_spec clean ""); [done|].
  destruct (String.eqb_spec clean " "); [done|]. simpl.
  unfold ValidateAddress. rewrite Hc, Hg, Hcomplete. simpl. done.
Qed.

End Composed.

End AdapterFacts.

Lemma match_without_geocode_is_measured_from_zero_witness :
  let gava :=
    {| Adapters.client := λ _ _ _,
         (Some (Adapters.mkResponse (Some (Adapters.mkValidationResult
            (Some (Adapters.mkVerdict "PREMISE" "PREMISE" true))
            (Some "123 Main St, Bronx, NY"%string) None))), None);
       Adapters.config := Services.mkMapConfig "key" 2 "mi" 40.8448 (-73.8648) "us" "Bronx" |} in
  let s := {| Services.validator := Adapters.ValidateAddress gava;
              Services.config := Adapters.config gava |} in
  let r := Ports.result
     (@Services.ValidateAddress Approx.math Approx.unicode s "123 Main St") in
  Ports.IsValid r = true ∧ Ports.Latitude r = 0%float ∧ Ports.Longitude r = 0%float.
Proof.
  intros gava s r.
  destruct (@match_without_geocode_is_measured_from_zero Approx.math Approx.unicode
              gava "123 Main St" (Adapters.mkVerdict "PREMISE" "PREMISE" true)
              (Some "123 Main St, Bronx, NY"%string))
    as (_ & Hv & Hlat & Hlng & _).
  - vm_compute. discriminate.
  - vm_compute. discriminate.
  - reflexivity.
  - reflexivity.
  - reflexivity.
  - split; [exact Hv|]. split; [exact Hlat | exact Hlng].
Defined.

Section MapsAdapterFacts.
Import Ports MapsAdapterLegacy.
Context `{Math.Lib}.

(** X23.  The earlier Google Maps adapter returns a valid result exactly
    when it returns no error, and that is exactly when the address is not
    empty and the geocoder answers without error with at least one match;
    every invalid result carries a message; the geocoder is called for
    every address but the empty one; and the result carries the formatted
    address and the coordinates of the first match. *)
Theorem maps_adapter_valid_iff_no_error (gma : GoogleMapsAdapter) (address : string) :
  let ret := ValidateAddress gma address in
  (IsValid (result ret) = true ↔ err ret = None) ∧
  (err ret = None ↔
     address ≠ ""%string ∧ snd (client gma address) = None ∧ fst (client gma address) ≠ []) ∧
  (IsValid (result ret) = false → Error (result ret) ≠ ""%string) ∧
  (geocoded ret = [] ↔ address = ""%string) ∧
  (∀ first rest, address ≠ ""%string → client gma address = (first :: rest, None) →
     FormattedAddress (result ret) = FormattedAddress_ first ∧
     (Latitude (result ret), Longitude (result ret)) = Location first).
Proof.
  unfold ValidateAddress.
  destruct (String.eqb_spec address "") as [->|Hne]; simpl.
  { repeat split; try done. by intros [? _]. }
  destruct (client gma address) as [[|first rest] [e|]]; simpl;
    (split; [split; done|]);
    (split; [split; [done|by intros (_ & ? & ?)]|]);
    (split; [done|]); (split; [split; done|]);
    intros f r _ E; try done.
  injection E as -> ->. by destruct (Location f).
Qed.

(** X24.  The earlier Google Maps adapter measures in kilometers only for
    the unit km exactly, and in miles for every other unit: the empty one,
    KM in upper case, and mi alike.  For such a unit its whole answer is
    the one it gives for mi. *)
Theorem maps_adapter_measures_in_miles_unless_km
    (geocoder : GoogleMapsClient) (maxDistance : float) (unit : string)
    (centerLat centerLng : float) (address : string) :
  unit ≠ "km"%string →
  let gma (u : string) :=
    {| client := geocoder;
       config := {| ServicesLegacy.Geofence :=
                      ServicesLegacy.mkGeofenceConfig maxDistance u centerLat centerLng |} |} in
  ValidateAddress (gma unit) address = ValidateAddress (gma "mi"%string) address.
Proof.
  intros Hne gma. unfold ValidateAddress. simpl.
  destruct (address =? "")%string; [done|].
  destruct (geocoder address) as [[|first rest] [e|]]; try done.
  by rewrite adapter_calculateDistance_default_miles.
Qed.

End MapsAdapterFacts.

Lemma maps_adapter_measures_in_miles_unless_km_witness :
  let geocoder : MapsAdapterLegacy.GoogleMapsClient := λ _,
    ([MapsAdapterLegacy.mkGeocodingResult "New York, NY 10007, USA"
        (40.7128%float, (-74.0060)%float)], None) in
  let gma (u : string) :=
    {| MapsAdapterLegacy.client := geocoder;
       MapsAdapterLegacy.config :=
         {| ServicesLegacy.Geofence :=
              ServicesLegacy.mkGeofenceConfig 15 u 40.8448 (-73.8648) |} |} in
  @MapsAdapterLegacy.ValidateAddress Approx.math (gma "KM"%string) "1 Centre St"
  = @MapsAdapterLegacy.ValidateAddress Approx.math (gma "mi"%string) "1 Centre St".
Proof.
  intros geocoder gma.
  apply (@maps_adapter_measures_in_miles_unless_km Approx.math geocoder
           15%float "KM" 40.8448%float (-73.8648)%float "1 Centre St").
  discriminate.
Defined.

(* ===================================================================== *)
(** * The HTTP endpoint                                                  *)
(* ===================================================================== *)

Section HttpFacts.
Import Time Ports Http SpecMore.
Context `{Math.Lib} `{Strings.UnicodeTables} `{Json}.

Lemma ValidateAddress_admission (h : AddressHandler) (now : Time) (r : Request) :
  reachesLimiter h r →
  limiter (ValidateAddress h now r) = (Handlers.Allow (rateLimiter h) now (clientIP r)).2 ∧
  ((Handlers.Allow (rateLimiter h) now (clientIP r)).1 = false →
     response (ValidateAddress h now r)
     = Error "Rate limit exceeded" 429 (SetContentType "application/json" newResponseWriter) ∧
     validation (ValidateAddress h now r) = None) ∧
  ((Handlers.Allow (rateLimiter h) now (clientIP r)).1 = true →
     match Body r with
     | None =>
         response (ValidateAddress h now r)
         = Error "Invalid request body" 400 (SetContentType "application/json" newResponseWriter) ∧
         validation (ValidateAddress h now r) = None
     | Some address =>
         validation (ValidateAddress h now r)
         = Some (Services.ValidateAddress (service h) address)
     end).
Proof.
  intros [Hm Htls]. unfold ValidateAddress, MethodPost. rewrite Hm. simpl.
  assert (Config.IsHttpSecure (config h) && negb (TLS r) = false) as ->.
  { destruct (Config.IsHttpSecure (config h)); [by rewrite Htls|done]. }
  assert ((if negb (XForwardedFor r =? "")%string then XForwardedFor r else RemoteAddr r)
          = clientIP r) as ->.
  { unfold clientIP. by destruct (_ =? _)%string. }
  destruct (Handlers.Allow (rateLimiter h) now (clientIP r)) as [[|] rl]; simpl.
  - destruct (Body r); simpl; split; [|split| |split]; done.
  - split; [|split]; done.
Qed.

(** X25.  A request that is not a POST, or that comes without TLS while
    HTTPS is required, is answered with 405 or 400 before the rate limiter
    is consulted: the limiter is left as it was and the service is not
    called. *)
Theorem early_rejection_consumes_no_quota (h : AddressHandler) (now : Time) (r : Request) :
  ¬ reachesLimiter h r →
  limiter (ValidateAddress h now r) = rateLimiter h ∧
  validation (ValidateAddress h now r) = None ∧
  (Method r ≠ "POST"%string →
     status (response (ValidateAddress h now r)) = Some 405 ∧
     body (response (ValidateAddress h now r)) = ("Method not allowed" ++ newline)%string) ∧
  (Method r = "POST"%string →
     status (response (ValidateAddress h now r)) = Some 400 ∧
     body (response (ValidateAddress h now r)) = ("HTTPS required" ++ newline)%string).
Proof.
  intros Hno. unfold ValidateAddress, MethodPost.
  destruct (String.eqb_spec (Method r) "POST") as [Hm|Hm]; simpl.
  - destruct (Config.IsHttpSecure (config h)) eqn:Hs, (TLS r) eqn:Ht; simpl;
      try (exfalso; apply Hno; split; [done|]; intros; congruence).
    repeat split; done.
  - repeat split; done.
Qed.

(** X26.  The rate-limit key is the X-Forwarded-For header as sent when it
    is not empty, and the remote address otherwise.  A request that
    reaches the limiter changes the entry of that key only. *)
Theorem quota_is_charged_to_the_forwarded_address
    (h : AddressHandler) (now : Time) (r : Request) :
  reachesLimiter h r →
  let key := if (XForwardedFor r =? "")%string then RemoteAddr r else XForwardedFor r in
  limiter (ValidateAddress h now r) = (Handlers.Allow (rateLimiter h) now key).2 ∧
  ∀ other, other ≠ key →
    Handlers.requests (limiter (ValidateAddress h now r)) !! other
    = Handlers.requests (rateLimiter h) !! other.
Proof.
  intros Hr key. destruct (ValidateAddress_admission h now r Hr) as [Hl _].
  fold (clientIP r) in key. subst key. split; [done|].
  intros other Hne. rewrite Hl. by apply Allow_other_client.
Qed.

(** X27.  A request that reaches the limiter with an X-Forwarded-For value
    the limiter has not seen is never answered with 429, whatever the
    remote address has sent before: with a limit of at least one it is
    admitted and the forwarded value gets an entry of its own. *)
Theorem fresh_forwarded_address_is_not_throttled
    (h : AddressHandler) (now : Time) (r : Request) :
  reachesLimiter h r →
  XForwardedFor r ≠ ""%string →
  Handlers.requests (rateLimiter h) !! XForwardedFor r = None →
  1 ≤ Handlers.maxRequests (rateLimiter h) < 2 ^ 63 →
  status (response (ValidateAddress h now r)) ≠ Some 429 ∧
  Handlers.stored (limiter (ValidateAddress h now r)) (XForwardedFor r) = [now].
Proof.
  intros Hr Hx Hfresh Hmax.
  destruct (ValidateAddress_admission h now r Hr) as (Hl & _ & Hok).
  assert (clientIP r = XForwardedFor r) as Hkey.
  { unfold clientIP. by destruct (String.eqb_spec (XForwardedFor r) ""). }
  rewrite Hkey in *.
  assert (Handlers.prune (rateLimiter h) now (XForwardedFor r) = []) as Hp.
  { unfold Handlers.prune, Handlers.stored. by rewrite Hfresh. }
  assert (Handlers.Allow (rateLimiter h) now (XForwardedFor r)
          = (true, Handlers.store (rateLimiter h) (XForwardedFor r) [now])) as Ha.
  { rewrite Allow_admit; rewrite ?Hp; simpl; [done|lia|lia]. }
  rewrite Ha in *. simpl in *. split; [|by rewrite Hl, stored_store].
  specialize (Hok eq_refl).
  unfold ValidateAddress, MethodPost. destruct Hr as [-> Htls]. simpl.
  assert (Config.IsHttpSecure (config h) && negb (TLS r) = false) as ->.
  { destruct (Config.IsHttpSecure (config h)); [by rewrite Htls|done]. }
  destruct (String.eqb_spec (XForwardedFor r) ""); [done|]. simpl.
  rewrite Ha. simpl.
  destruct (Body r) as [address|]; simpl; [|done].
  destruct (err _); simpl; unfold Encode; destruct (Marshal _); simpl; done.
Qed.

(** X28.  A throttled request is answered with 429 and the service is not
    called.  An admitted request whose body does not decode is answered
    with 400 without the service being called, and it has used up one unit
    of the caller's quota all the same. *)
Theorem throttled_or_malformed_request_is_not_validated
    (h : AddressHandler) (now : Time) (r : Request) :
  reachesLimiter h r →
  ((Handlers.Allow (rateLimiter h) now (clientIP r)).1 = false →
     status (response (ValidateAddress h now r)) = Some 429 ∧
     body (response (ValidateAddress h now r)) = ("Rate limit exceeded" ++ newline)%string ∧
     validation (ValidateAddress h now r) = None) ∧
  ((Handlers.Allow (rateLimiter h) now (clientIP r)).1 = true → Body r = None →
     status (response (ValidateAddress h now r)) = Some 400 ∧
     body (response (ValidateAddress h now r)) = ("Invalid request body" ++ newline)%string ∧
     validation (ValidateAddress h now r) = None ∧
     Handlers.stored (limiter (ValidateAddress h now r)) (clientIP r)
     = Handlers.prune (rateLimiter h) now (clientIP r) ++ [now]).
Proof.
  intros Hr. destruct (ValidateAddress_admission h now r Hr) as (Hl & Hno & Hok).
  split.
  - intros Hrej. destruct (Hno Hrej) as [-> ->]. done.
  - intros Hadm Hbody. specialize (Hok Hadm). rewrite Hbody in Hok.
    destruct Hok as [-> ->]. repeat split; try done.
    rewrite Hl. rewrite Allow_unfold in Hadm |- *.
    case_bool_decide; [done|]. simpl. by rewrite stored_store.
Qed.

(** X29.  For an admitted request with a decodable body the status is 400
    exactly when the service returns an error and 200 otherwise, with the
    encoded result as the body in both cases.  When the result cannot be
    encoded the body is the internal-error message; the status is 500
    only if no 400 had been written before. *)
Theorem status_follows_the_service_error
    (h : AddressHandler) (now : Time) (r : Request) (address : string) :
  reachesLimiter h r →
  (Handlers.Allow (rateLimiter h) now (clientIP r)).1 = true →
  Body r = Some address →
  let ret := Services.ValidateAddress (service h) address in
  let w := response (ValidateAddress h now r) in
  (∀ text, Marshal (result ret) = Some text →
     status w = Some (match err ret with Some _ => 400 | None => 200 end) ∧
     body w = (text ++ newline)%string ∧
     sentContentType w = "application/json"%string) ∧
  (Marshal (result ret) = None →
     status w = Some (match err ret with Some _ => 400 | None => 500 end) ∧
     body w = ("Internal server error" ++ newline)%string).
Proof.
  intros [Hm Htls] Hadm Hbody ret w. subst w.
  unfold ValidateAddress, MethodPost. rewrite Hm. simpl.
  assert (Config.IsHttpSecure (config h) && negb (TLS r) = false) as ->.
  { destruct (Config.IsHttpSecure (config h)); [by rewrite Htls|done]. }
  assert ((if negb (XForwardedFor r =? "")%string then XForwardedFor r else RemoteAddr r)
          = clientIP r) as ->.
  { unfold clientIP. by destruct (_ =? _)%string. }
  destruct (Handlers.Allow (rateLimiter h) now (clientIP r)) as [[|] rl]; [|done].
  simpl. rewrite Hbody. fold ret. unfold Encode.
  split.
  - intros text ->. by destruct (err ret).
  - intros ->. by destruct (err ret).
Qed.

End HttpFacts.

Lemma early_rejection_consumes_no_quota_witness :
  let h := StandIns.handler 2 ∅ in
  let r := Http.mkRequest "GET" true "10.0.0.9:51000" "" (Some "123 Main St"%string) in
  let x := @Http.ValidateAddress Approx.math Approx.unicode StandIns.json h 100 r in
  Http.limiter x = Http.rateLimiter h ∧ Http.validation x = None.
Proof.
  intros h r x.
  destruct (@early_rejection_consumes_no_quota Approx.math Approx.unicode StandIns.json
              h 100 r) as (Hl & Hv & _).
  - intros [Hm _]. discriminate Hm.
  - split; [exact Hl | exact Hv].
Defined.

Lemma quota_is_charged_to_the_forwarded_address_witness :
  let h := StandIns.handler 2 {[ "10.0.0.9:51000"%string := [50; 95] ]} in
  let r := Http.mkRequest "POST" true "10.0.0.9:51000" "203.0.113.7"
             (Some "123 Main St"%string) in
  let x := @Http.ValidateAddress Approx.math Approx.unicode StandIns.json h 100 r in
  Handlers.requests (Http.limiter x) !! "10.0.0.9:51000"%string = Some [50; 95].
Proof.
  intros h r x.
  destruct (@quota_is_charged_to_the_forwarded_address Approx.math Approx.unicode
              StandIns.json h 100 r) as [_ Hother].
  - split; [reflexivity | intros _; reflexivity].
  - exact (Hother "10.0.0.9:51000"%string ltac:(discriminate)).
Defined.

Lemma fresh_forwarded_address_is_not_throttled_witness :
  let h := StandIns.handler 2 {[ "10.0.0.9:51000"%string := [50; 95] ]} in
  let r := Http.mkRequest "POST" true "10.0.0.9:51000" "203.0.113.7"
             (Some "123 Main St"%string) in
  let x := @Http.ValidateAddress Approx.math Approx.unicode StandIns.json h 100 r in
  Http.status (Http.response x) ≠ Some 429 ∧
  Handlers.stored (Http.limiter x) "203.0.113.7" = [100].
Proof.
  intros h r x.
  apply (@fresh_forwarded_address_is_not_throttled Approx.math Approx.unicode
           StandIns.json h 100 r).
  - split; [reflexivity | intros _; reflexivity].
  - discriminate.
  - vm_compute. reflexivity.
  - simpl. lia.
Defined.

Lemma throttled_or_malformed_request_is_not_validated_witness :
  let h := StandIns.handler 2 {[ "10.0.0.9:51000"%string := [50; 95] ]} in
  let r := Http.mkRequest "POST" true "10.0.0.9:51000" "" (Some "123 Main St"%string) in
  let x := @Http.ValidateAddress Approx.math Approx.unicode StandIns.json h 100 r in
  Http.status (Http.response x) = Some 429 ∧
  Http.body (Http.response x) = ("Rate limit exceeded" ++ Http.newline)%string ∧
  Http.validation x = None.
Proof.
  intros h r x.
  destruct (@throttled_or_malformed_request_is_not_validated Approx.math Approx.unicode
              StandIns.json h 100 r) as [Hrej _].
  - split; [reflexivity | intros _; reflexivity].
  - apply Hrej. vm_compute. reflexivity.
Defined.

Lemma status_follows_the_service_error_witness :
  let h := StandIns.handler 2 ∅ in
  let r := Http.mkRequest "POST" true "10.0.0.9:51000" "" (Some "<>"%string) in
  let x := @Http.ValidateAddress Approx.math Approx.unicode StandIns.json h 100 r in
  Http.status (Http.response x) = Some 400 ∧
  Http.body (Http.response x) = ("{invalid}" ++ Http.newline)%string ∧
  Http.sentContentType (Http.response x) = "application/json"%string.
Proof.
  intros h r x.
  destruct (@status_follows_the_service_error Approx.math Approx.unicode StandIns.json
              h 100 r "<>") as [Hok _].
  - split; [reflexivity | intros _; reflexivity].
  - vm_compute. reflexivity.
  - reflexivity.
  - exact (Hok "{invalid}"%string eq_refl).
Defined.
